(** * passbook administration overview

    A shallow embedding of [passbook/admin/views/overview.py]: the
    administration overview view and the two views that clear the policy
    and the flow cache.

    The views are glue between Django's ORM, the cache client, the celery
    queue and the generic form views, so the embedding has four layers:
    - the cache as a finite map with Redis-style pattern matching on keys,
    - the database as a record of tables, queried with joins, three-valued
      [WHERE] conditions and [GROUP BY] aggregation,
    - a state monad over the world the views act on,
    - the views themselves, written statement by statement. *)

From stdpp Require Import gmap strings list fin_maps sorting.
From Stdlib Require Import ZArith Ascii.

Local Open Scope string_scope.
Local Open Scope list_scope.
Local Open Scope nat_scope.

(** ** Cache keys and patterns *)

(** [cache.keys(pattern)] hands the pattern to the cache server, which
    matches it as a glob: [*] stands for any run of characters, [?] for one
    character, anything else for itself.  (Character classes and escapes do
    not occur in the two patterns of this file.) *)
Fixpoint glob_match (p : string) : string → bool :=
  match p with
  | EmptyString =>
      λ s, match s with EmptyString => true | String _ _ => false end
  | String c p' =>
      if Ascii.eqb c "*" then
        fix star (s : string) : bool :=
          glob_match p' s
          || match s with EmptyString => false | String _ s' => star s' end
      else if Ascii.eqb c "?" then
        λ s, match s with EmptyString => false | String _ s' => glob_match p' s' end
      else
        λ s, match s with
             | EmptyString => false
             | String d s' => Ascii.eqb c d && glob_match p' s'
             end
  end.

(** A pattern character that stands for itself. *)
Definition literal (c : ascii) : bool :=
  negb (Ascii.eqb c "*") && negb (Ascii.eqb c "?").

Fixpoint literals (p : string) : bool :=
  match p with
  | EmptyString => true
  | String c p' => literal c && literals p'
  end.

(** ** The database *)

Definition pk := N.

(** [EventAction] is declared in [passbook.audit.models]; this view names
    one member only. *)
Inductive EventAction :=
  | AUTHORIZE_APPLICATION
  | OTHER_ACTION (name : string).

Global Instance EventAction_eq_dec : EqDecision EventAction.
Proof. solve_decision. Defined.

(** A value stored under a key of a JSON column: JSON [null], or any other
    value, identified with the text that the [->>] operator renders it to. *)
Inductive json :=
  | JNull
  | JText (rendered : string).

Global Instance json_eq_dec : EqDecision json.
Proof. solve_decision. Defined.

Record PolicyRow := { policy_uuid : pk; policy_name : string }.
(** A row of the relation behind [Policy.bindings]. *)
Record PolicyBindingRow := { binding_policy : pk; binding_target : pk }.
(** A row of the relation behind [Policy.promptstage]
    (a prompt stage's validation policies). *)
Record PromptStagePolicyRow := { promptstage_pk : pk; promptstage_policy : pk }.
Record UserRow := { user_pk_col : pk; username : string }.
Record ProviderRow := { provider_pk : pk }.
(** [Application.provider] is a nullable one-to-one field. *)
Record ApplicationRow := { application_slug : string; application_provider : option pk }.
Record EventRow := {
  action : EventAction;
  context : gmap string json;
  user : gmap string json;
}.

Record Database := {
  Policy_objects : list PolicyRow;
  PolicyBinding_objects : list PolicyBindingRow;
  PromptStage_validation_policies : list PromptStagePolicyRow;
  User_objects : list UserRow;
  Provider_objects : list ProviderRow;
  Application_objects : list ApplicationRow;
  Event_objects : list EventRow;
}.

(** *** Query building blocks *)

(** [len(queryset)] as a Python integer. *)
Definition len {A} (l : list A) : Z := Z.of_nat (length l).

(** SQL conditions are three-valued: [None] is UNKNOWN. A [WHERE] clause
    keeps the rows whose condition is TRUE. *)
Definition sql_bool := option bool.

Definition sql_not (b : sql_bool) : sql_bool := negb <$> b.

Definition qs_filter {A} (cond : A → sql_bool) (qs : list A) : list A :=
  filter (λ r, cond r = Some true) qs.

Definition qs_exclude {A} (cond : A → sql_bool) (qs : list A) : list A :=
  filter (λ r, sql_not (cond r) = Some true) qs.

(** [LEFT OUTER JOIN]: every left row with each matching right row, or
    with NULL when there is none. *)
Definition left_join {A B} (on : A → B → bool) (l : list A) (r : list B)
  : list (A * option B) :=
  l ≫= λ a,
    match List.filter (on a) r with
    | [] => [(a, None)]
    | bs => (λ b, (a, Some b)) <$> bs
    end.

(** [column__key = None] on a JSON column compares the value under the key
    with JSON [null]; a missing key gives SQL NULL, and the comparison is
    UNKNOWN. *)
Definition key_exact_null (key : string) (col : gmap string json) : sql_bool :=
  (λ j, bool_decide (j = JNull)) <$> col !! key.

(** [KeyTextTransform(key, column)]: the value under the key as text; NULL
    for a missing key and for JSON [null]. *)
Definition KeyTextTransform (key : string) (col : gmap string json)
  : option string :=
  match col !! key with
  | Some (JText s) => Some s
  | Some JNull | None => None
  end.

(** [Count(column)] counts the values that are not NULL;
    [Count(column, distinct=True)] the different ones among them. *)
Definition Count (col : list (option string)) : nat :=
  length (omap id col).

Definition Count_distinct (col : list (option string)) : nat :=
  length (remove_dups (omap id col)).

(** An event with the two annotations of the query. *)
Record AnnotatedEvent := {
  ann_event : EventRow;
  ann_application : option string;
  ann_user_pk : option string;
}.

(** [.annotate(application=KeyTextTransform("authorized_application",
    "context")).annotate(user_pk=KeyTextTransform("pk", "user"))] *)
Definition annotate (e : EventRow) : AnnotatedEvent :=
  {| ann_event := e;
     ann_application := KeyTextTransform "authorized_application" (context e);
     ann_user_pk := KeyTextTransform "pk" (user e) |}.

(** A row of the result: [.values("unique_users", "application",
    "total_logins")]. *)
Record AppRow := {
  application : option string;
  total_logins : nat;
  unique_users : nat;
}.

(** [.values("application")] followed by aggregate annotations groups the
    rows by [application] (NULL is a group of its own) and yields one row
    per group. *)
Definition group_rows (qs : list AnnotatedEvent) (k : option string)
  : list AnnotatedEvent :=
  filter (λ r, ann_application r = k) qs.

Definition aggregate (qs : list AnnotatedEvent) : list AppRow :=
  (λ k,
     let g := group_rows qs k in
     {| application := k;
        total_logins := Count (ann_application <$> g);
        unique_users := Count_distinct (ann_user_pk <$> g) |})
  <$> remove_dups (ann_application <$> qs).

(** [.order_by("-total_logins")]. The order among rows with equal counts is
    left to the database; the model fixes one. *)
Definition more_logins (r1 r2 : AppRow) : Prop :=
  total_logins r2 ≤ total_logins r1.

Global Instance more_logins_dec : RelDecision more_logins.
Proof. intros r1 r2. unfold more_logins. apply _. Defined.

Definition order_by_total_logins_desc (rows : list AppRow) : list AppRow :=
  merge_sort more_logins rows.

(** ** The world the views act on

    The database, the cache (keys as the application names them, values as
    stored), the tasks handed to celery, the messages of the request, the
    log, and the one setting the views read. *)

Inductive Task := update_latest_version.

Inductive url := reverse_lazy (viewname : string).

(** A translatable text, [_("...")]. It is empty only if its source is. *)
Inductive text := gettext (msgid : string).

Definition text_truthy (t : text) : bool :=
  match t with gettext EmptyString => false | gettext _ => true end.

Inductive MessageLevel := SUCCESS | ERROR.

Record LogRecord := { log_event : string; log_keys : Z }.

Record World := {
  db : Database;
  cache : gmap string string;
  celery : list Task;
  messages : list (MessageLevel * text);
  log : list LogRecord;
  settings_DEBUG : bool;
}.

Definition set_cache (c : gmap string string) (w : World) : World :=
  {| db := db w; cache := c; celery := celery w; messages := messages w;
     log := log w; settings_DEBUG := settings_DEBUG w |}.

Definition add_task (t : Task) (w : World) : World :=
  {| db := db w; cache := cache w; celery := celery w ++ [t];
     messages := messages w; log := log w;
     settings_DEBUG := settings_DEBUG w |}.

Definition add_message (m : MessageLevel * text) (w : World) : World :=
  {| db := db w; cache := cache w; celery := celery w;
     messages := messages w ++ [m]; log := log w;
     settings_DEBUG := settings_DEBUG w |}.

Definition add_log (r : LogRecord) (w : World) : World :=
  {| db := db w; cache := cache w; celery := celery w;
     messages := messages w; log := log w ++ [r];
     settings_DEBUG := settings_DEBUG w |}.

(** *** The state monad *)

Definition M (A : Type) : Type := World → A * World.

Global Instance M_ret : MRet M := λ A a w, (a, w).
Global Instance M_bind : MBind M :=
  λ A B f m w, let '(a, w') := m w in f a w'.

Definition result {A} (m : M A) (w : World) : A := (m w).1.
Definition after {A} (m : M A) (w : World) : World := (m w).2.

(** Evaluating a queryset. *)
Definition query {A} (q : Database → A) : M A := λ w, (q (db w), w).

Definition read_DEBUG : M bool := λ w, (settings_DEBUG w, w).

(** [cache.get(key)]: [None] when the key is not in the cache. *)
Definition cache_get (key : string) : M (option string) :=
  λ w, (cache w !! key, w).

(** [cache.keys(pattern)]. *)
Definition keys_matching (pattern : string) (c : gmap string string)
  : list string :=
  filter (λ k, glob_match pattern k) (map_to_list c).*1.

Definition cache_keys (pattern : string) : M (list string) :=
  λ w, (keys_matching pattern (cache w), w).

(** [cache.delete_many(keys)]. *)
Definition delete_keys (keys : list string) (c : gmap string string)
  : gmap string string :=
  foldr delete c keys.

Definition cache_delete_many (keys : list string) : M () :=
  λ w, ((), set_cache (delete_keys keys (cache w)) w).

(** [task.delay()]. *)
Definition delay (t : Task) : M () := λ w, ((), add_task t w).

(** [messages.success(request, message)]. *)
Definition messages_success (t : text) : M () :=
  λ w, ((), add_message (SUCCESS, t) w).

(** [LOGGER.debug(event, keys=...)]. *)
Definition LOGGER_debug (event : string) (keys : Z) : M () :=
  λ w, ((), add_log {| log_event := event; log_keys := keys |} w).

(** Truth value of what [cache.get] returned: [None] and the empty string
    are false. *)
Definition truthy (v : option string) : bool :=
  match v with
  | None | Some EmptyString => false
  | Some (String _ _) => true
  end.

(** ** Requests, forms and responses *)

Record HttpRequest := { POST : gmap string string }.

(** A form class, as far as the generic views use it. *)
Record Form := { is_valid : gmap string string → bool }.

Inductive HttpResponse :=
  | HttpResponseRedirect (location : url)
  | TemplateResponse (template : string).

(** The class attributes of a form view. *)
Record FormViewClass := {
  form_class : Form;
  template_name : string;
  success_url : url;
  success_message : text;
}.

(** [SuccessMessageMixin.form_valid]: the redirect of
    [FormMixin.form_valid], and the success message when there is one.
    ([success_message % cleaned_data] is the message itself: the two
    messages of this file have no format specifier.) *)
Definition form_valid (cls : FormViewClass) : M HttpResponse :=
  let response := HttpResponseRedirect (success_url cls) in
  (if text_truthy (success_message cls)
   then messages_success (success_message cls)
   else mret ());;
  mret response.

(** [FormMixin.form_invalid]: the form is rendered again. *)
Definition form_invalid (cls : FormViewClass) : M HttpResponse :=
  mret (TemplateResponse (template_name cls)).

(** [ProcessFormView.post]: [form_valid] if [form.is_valid()], else
    [form_invalid]. *)
Definition FormView_post (cls : FormViewClass) (request : HttpRequest)
  : M HttpResponse :=
  if is_valid (form_class cls) (POST request)
  then form_valid cls
  else form_invalid cls.

(** A value of the template context. *)
Inductive ctxval (Ver : Type) :=
  | CInt (n : Z)
  | CVersion (v : Ver)
  | CApplications (rows : list AppRow)
  | CProviders (rows : list ProviderRow)
  | CView (name : string).
Arguments CInt {Ver} n.
Arguments CVersion {Ver} v.
Arguments CApplications {Ver} rows.
Arguments CProviders {Ver} rows.
Arguments CView {Ver} name.

(** [ContextMixin.get_context_data]: [kwargs.setdefault("view", self)]. *)
Definition TemplateView_get_context_data {Ver} (self : string)
    (kwargs : gmap string (ctxval Ver)) : M (gmap string (ctxval Ver)) :=
  mret (match kwargs !! "view" with
        | Some _ => kwargs
        | None => <["view" := CView self]> kwargs
        end).

(** ** The views *)

Section Views.

(** What the module imports from the rest of the project and from
    [packaging]: the version parser, the project's version string, the
    cache key of the latest known version, and the two form classes. *)
Context {Ver : Type}.
Variable parse : string → Ver.
Variable __version__ : string.
Variable VERSION_CACHE_KEY : string.
Variables PolicyCacheClearForm FlowCacheClearForm : Form.

(** [AdminRequiredMixin] decides in [dispatch] whether a handler runs;
    the model starts where the handler does. *)

(** *** [AdministrationOverviewView] *)

(** [if not version_in_cache] is a truth test: the first branch of the
    match is the path of a true value, the second the body of the [if]. *)

Definition get_latest_version : M Ver :=
  version_in_cache ← cache_get VERSION_CACHE_KEY;
  match truthy version_in_cache, version_in_cache with
  | true, Some v => mret (parse v)
  | _, _ =>
      DEBUG ← read_DEBUG;
      (if negb DEBUG then delay update_latest_version else mret ());;
      mret (parse __version__)
  end.

Definition most_used_applications_query (d : Database) : list AppRow :=
  let qs :=
    qs_filter (λ e, Some (bool_decide (action e = AUTHORIZE_APPLICATION)))
      (Event_objects d) in
  let qs :=
    qs_exclude (λ e, key_exact_null "authorized_application" (context e)) qs in
  let qs := annotate <$> qs in
  take 15 (order_by_total_logins_desc (aggregate qs)).

(** The queryset is lazy; the model evaluates it where it is built, and
    nothing changes the database in between. *)
Definition get_most_used_applications : M (list AppRow) :=
  query most_used_applications_query.

(** [Provider.objects.filter(application=None)] *)
Definition providers_without_application_query (d : Database)
  : list ProviderRow :=
  let joined :=
    left_join
      (λ p a, bool_decide (application_provider a = Some (provider_pk p)))
      (Provider_objects d) (Application_objects d) in
  fst <$> filter (λ r, r.2 = None) joined.

(** [Policy.objects.filter(bindings__isnull=True, promptstage__isnull=True)] *)
Definition policies_without_binding_query (d : Database) : list PolicyRow :=
  let with_bindings :=
    left_join (λ p b, bool_decide (binding_policy b = policy_uuid p))
      (Policy_objects d) (PolicyBinding_objects d) in
  let with_stages :=
    left_join
      (λ r s, bool_decide (promptstage_policy s = policy_uuid r.1))
      with_bindings (PromptStage_validation_policies d) in
  (λ r, r.1.1) <$> filter (λ r, r.1.2 = None ∧ r.2 = None) with_stages.

Definition get_context_data (kwargs : gmap string (ctxval Ver))
  : M (gmap string (ctxval Ver)) :=
  policies ← query Policy_objects;
  let kwargs := <["policy_count" := CInt (len policies)]> kwargs in
  users ← query User_objects;
  let kwargs := <["user_count" := CInt (len users - 1)]> kwargs in
  providers ← query Provider_objects;
  let kwargs := <["provider_count" := CInt (len providers)]> kwargs in
  let kwargs := <["version" := CVersion (parse __version__)]> kwargs in
  version_latest ← get_latest_version;
  let kwargs := <["version_latest" := CVersion version_latest]> kwargs in
  most_used ← get_most_used_applications;
  let kwargs := <["most_used_applications" := CApplications most_used]> kwargs in
  without_application ← query providers_without_application_query;
  let kwargs :=
    <["providers_without_application" := CProviders without_application]>
      kwargs in
  without_binding ← query policies_without_binding_query;
  let kwargs :=
    <["policies_without_binding" := CInt (len without_binding)]> kwargs in
  policy_keys ← cache_keys "policy_*";
  let kwargs := <["cached_policies" := CInt (len policy_keys)]> kwargs in
  flow_keys ← cache_keys "flow_*";
  let kwargs := <["cached_flows" := CInt (len flow_keys)]> kwargs in
  TemplateView_get_context_data "AdministrationOverviewView" kwargs.

(** *** [PolicyCacheClearView] *)

Definition PolicyCacheClearView : FormViewClass :=
  {| form_class := PolicyCacheClearForm;
     template_name := "generic/form_non_model.html";
     success_url := reverse_lazy "passbook_admin:overview";
     success_message := gettext "Successfully cleared Policy cache" |}.

Definition PolicyCacheClearView_post (request : HttpRequest)
  : M HttpResponse :=
  keys ← cache_keys "policy_*";
  cache_delete_many keys;;
  LOGGER_debug "Cleared Policy cache" (len keys);;
  FormView_post PolicyCacheClearView request.

(** *** [FlowCacheClearView] *)

Definition FlowCacheClearView : FormViewClass :=
  {| form_class := FlowCacheClearForm;
     template_name := "generic/form_non_model.html";
     success_url := reverse_lazy "passbook_admin:overview";
     success_message := gettext "Successfully cleared Flow cache" |}.

Definition FlowCacheClearView_post (request : HttpRequest)
  : M HttpResponse :=
  keys ← cache_keys "flow_*";
  cache_delete_many keys;;
  LOGGER_debug "Cleared flow cache" (len keys);;
  FormView_post FlowCacheClearView request.

End Views.

(** ** Vocabulary of the properties *)

(** An event counts for application [a] when it records an authorisation
    and its context names [a] as the authorised application. *)
Definition authorizes (a : string) (e : EventRow) : Prop :=
  action e = AUTHORIZE_APPLICATION
  ∧ context e !! "authorized_application" = Some (JText a).

Global Instance authorizes_dec a e : Decision (authorizes a e).
Proof. unfold authorizes. apply _. Defined.

(** The users behind a list of events, by primary key. *)
Definition users_of (events : list EventRow) : gset string :=
  list_to_set (omap (λ e, KeyTextTransform "pk" (user e)) events).

(** A policy is bound when a binding refers to it, and validates a prompt
    stage when a prompt stage lists it among its validation policies. *)
Definition bound (d : Database) (p : PolicyRow) : Prop :=
  Exists (λ b, binding_policy b = policy_uuid p) (PolicyBinding_objects d).

Definition validates_prompt_stage (d : Database) (p : PolicyRow) : Prop :=
  Exists (λ s, promptstage_policy s = policy_uuid p)
    (PromptStage_validation_policies d).

Global Instance bound_dec d p : Decision (bound d p).
Proof. unfold bound. apply _. Defined.

Global Instance validates_prompt_stage_dec d p :
  Decision (validates_prompt_stage d p).
Proof. unfold validates_prompt_stage. apply _. Defined.

(** The entries of a cache whose key starts with a prefix. *)
Definition entries_with_prefix (prefix : string) (c : gmap string string)
  : gmap string string :=
  filter (λ kv : string * string, String.prefix prefix kv.1 = true) c.

(** ** Sample data *)

(** A version stands for the text it was parsed from. *)
Definition sample_parse (s : string) : string := s.
Definition sample_version : string := "0.10.0".
Definition sample_key : string := "passbook_latest_version".

(** A form without fields accepts every submission; a form with a
    required field rejects the submissions that lack it. *)
Definition fieldless_form : Form := {| is_valid := λ _, true |}.
Definition confirm_form : Form :=
  {| is_valid := λ data, bool_decide (is_Some (data !! "confirm")) |}.

Definition empty_request : HttpRequest := {| POST := ∅ |}.

Definition empty_database : Database :=
  {| Policy_objects := []; PolicyBinding_objects := [];
     PromptStage_validation_policies := []; User_objects := [];
     Provider_objects := []; Application_objects := [];
     Event_objects := [] |}.

Definition world_of (d : Database) (c : gmap string string) (debug : bool)
  : World :=
  {| db := d; cache := c; celery := []; messages := []; log := [];
     settings_DEBUG := debug |}.

(** One policy, not bound, that validates a prompt stage. *)
Definition prompt_policy_database : Database :=
  {| Policy_objects := [{| policy_uuid := 1%N; policy_name := "password-policy" |}];
     PolicyBinding_objects := [];
     PromptStage_validation_policies :=
       [{| promptstage_pk := 7%N; promptstage_policy := 1%N |}];
     User_objects := []; Provider_objects := []; Application_objects := [];
     Event_objects := [] |}.

(** Authorisation events for two applications, with events that the
    statistics leave out: one whose application is null, one without the
    key, and a login. *)
Definition sample_event (a : EventAction) (app : option json) (u : string)
  : EventRow :=
  {| action := a;
     context := match app with
                | Some j => {["authorized_application" := j]}
                | None => ∅
                end;
     user := {["pk" := JText u]} |}.

Definition sample_events_database : Database :=
  {| Policy_objects := []; PolicyBinding_objects := [];
     PromptStage_validation_policies := []; User_objects := [];
     Provider_objects := []; Application_objects := [];
     Event_objects :=
       [ sample_event AUTHORIZE_APPLICATION (Some (JText "grafana")) "1";
         sample_event AUTHORIZE_APPLICATION (Some (JText "gitlab")) "1";
         sample_event AUTHORIZE_APPLICATION (Some (JText "gitlab")) "2";
         sample_event AUTHORIZE_APPLICATION (Some (JText "gitlab")) "2";
         sample_event AUTHORIZE_APPLICATION (Some JNull) "3";
         sample_event AUTHORIZE_APPLICATION None "3";
         sample_event (OTHER_ACTION "login") (Some (JText "gitlab")) "5" ] |}.

(** A cache with two policy entries, a flow entry and the latest version. *)
Definition sample_cache : gmap string string :=
  <["policy_1" := "pass"]> (<["policy_2" := "fail"]> (<["flow_login" := "plan"]>
    (<["passbook_latest_version" := "0.10.1"]> ∅))).

(** A cache that holds the latest version and nothing else. *)
Definition version_only_cache : gmap string string :=
  {["passbook_latest_version" := "0.10.1"]}.

(** A cache with flow entries and no policy entry, and one with policy
    entries and no flow entry. *)
Definition flow_only_cache : gmap string string :=
  <["flow_login" := "plan"]> version_only_cache.

Definition policy_only_cache : gmap string string :=
  <["policy_1" := "pass"]> version_only_cache.

(** A cache whose version entry is the empty string. *)
Definition empty_version_cache : gmap string string :=
  {["passbook_latest_version" := ""]}.

(** ** Vocabulary of the further properties *)

(** The application an authorisation event names, if it names one. *)
Definition named_application (e : EventRow) : option string :=
  if decide (action e = AUTHORIZE_APPLICATION)
  then KeyTextTransform "authorized_application" (context e)
  else None.

(** The applications that the events of a database authorise. *)
Definition authorized_applications (d : Database) : gset string :=
  list_to_set (omap named_application (Event_objects d)).

(** The statistics of one application, read off the event table. *)
Definition application_row (d : Database) (a : string) : AppRow :=
  {| application := Some a;
     total_logins := length (filter (authorizes a) (Event_objects d));
     unique_users := size (users_of (filter (authorizes a) (Event_objects d))) |}.

(** A provider has an application when an application refers to it. *)
Definition has_application (d : Database) (p : ProviderRow) : Prop :=
  Exists (λ a, application_provider a = Some (provider_pk p))
    (Application_objects d).

Global Instance has_application_dec d p : Decision (has_application d p).
Proof. unfold has_application. apply _. Defined.

(** The keys that [get_context_data] assigns. *)
Definition overview_keys : list string :=
  [ "policy_count"; "user_count"; "provider_count"; "version";
    "version_latest"; "most_used_applications";
    "providers_without_application"; "policies_without_binding";
    "cached_policies"; "cached_flows" ].

(** Two providers, the first with an application; an application without
    a provider. *)
Definition sample_providers_database : Database :=
  {| Policy_objects := []; PolicyBinding_objects := [];
     PromptStage_validation_policies := []; User_objects := [];
     Provider_objects := [{| provider_pk := 1%N |}; {| provider_pk := 2%N |}];
     Application_objects :=
       [ {| application_slug := "grafana"; application_provider := Some 1%N |};
         {| application_slug := "wiki"; application_provider := None |} ];
     Event_objects := [] |}.

(** * Properties *)

(** ** Patterns *)

Lemma literal_not_wildcard (c : ascii) :
  literal c = true → Ascii.eqb c "*" = false ∧ Ascii.eqb c "?" = false.
Proof.
  unfold literal. intros [H1 H2]%andb_true_iff.
  apply negb_true_iff in H1. apply negb_true_iff in H2. done.
Qed.

Lemma glob_match_star (s : string) : glob_match "*" s = true.
Proof. induction s as [|c s IH]; [done|]. cbn in *. exact IH. Qed.

(** A pattern of literal characters followed by [*] matches exactly the
    keys that start with these characters. *)
Lemma glob_match_prefix (p s : string) :
  literals p = true → glob_match (p +:+ "*") s = String.prefix p s.
Proof.
  revert s. induction p as [|c p IH]; intros s Hp.
  - rewrite glob_match_star. by destruct s.
  - cbn in Hp. apply andb_true_iff in Hp as [Hc Hp].
    destruct (literal_not_wildcard c Hc) as [Hstar Hany].
    change (String c p +:+ "*") with (String c (p +:+ "*")).
    cbn [glob_match]. rewrite Hstar, Hany.
    destruct s as [|d s]; [done|]. cbn [String.prefix].
    rewrite (IH s Hp).
    destruct (ascii_dec c d) as [->|Hne].
    + by rewrite Ascii.eqb_refl.
    + apply Ascii.eqb_neq in Hne. by rewrite Hne.
Qed.

Lemma glob_policy (k : string) :
  glob_match "policy_*" k = String.prefix "policy_" k.
Proof. by apply (glob_match_prefix "policy_"). Qed.

Lemma glob_flow (k : string) :
  glob_match "flow_*" k = String.prefix "flow_" k.
Proof. by apply (glob_match_prefix "flow_"). Qed.

(** ** The cache *)

Lemma elem_of_keys_matching (p k : string) (c : gmap string string) :
  k ∈ keys_matching p c ↔ glob_match p k = true ∧ is_Some (c !! k).
Proof.
  unfold keys_matching. rewrite list_elem_of_filter, list_elem_of_fmap.
  rewrite Is_true_true. split.
  - intros [Hm ([k' v] & -> & Hin)]. split; [done|].
    apply elem_of_map_to_list in Hin. by exists v.
  - intros [Hm [v Hv]]. split; [done|].
    exists (k, v). split; [done|]. by apply elem_of_map_to_list.
Qed.

Lemma lookup_delete_keys (ks : list string) (c : gmap string string) (k : string) :
  delete_keys ks c !! k = if decide (k ∈ ks) then None else c !! k.
Proof.
  unfold delete_keys. induction ks as [|k' ks IH]; cbn [foldr].
  - case_decide as H; [by apply elem_of_nil in H | done].
  - destruct (decide (k' = k)) as [->|Hne].
    + rewrite lookup_delete_eq. rewrite decide_True; [done | left].
    + rewrite lookup_delete_ne by done. rewrite IH.
      destruct (decide (k ∈ ks)) as [Hin|Hin].
      * rewrite decide_True; [done | by right].
      * rewrite decide_False; [done|].
        intros [?|?]%elem_of_cons; congruence.
Qed.

(** Deleting the keys that match a pattern empties the pattern and leaves
    every other key alone. *)
Lemma lookup_delete_matching (p : string) (c : gmap string string) (k : string) :
  delete_keys (keys_matching p c) c !! k
  = if glob_match p k then None else c !! k.
Proof.
  rewrite lookup_delete_keys.
  destruct (decide (k ∈ keys_matching p c)) as [Hin|Hin].
  - apply elem_of_keys_matching in Hin as [-> _]. done.
  - destruct (glob_match p k) eqn:Hm; [|done].
    destruct (c !! k) as [v|] eqn:Hk; [|done].
    exfalso. apply Hin, elem_of_keys_matching. by rewrite Hk.
Qed.

Lemma keys_matching_nil (p : string) (c : gmap string string) :
  (∀ k, glob_match p k = true → c !! k = None) → keys_matching p c = [].
Proof.
  intros H. apply elem_of_nil_inv. intros k Hin.
  apply elem_of_keys_matching in Hin as [Hm [v Hv]].
  rewrite (H k Hm) in Hv. discriminate.
Qed.

Lemma delete_matching_twice (p : string) (c : gmap string string) :
  let c' := delete_keys (keys_matching p c) c in
  delete_keys (keys_matching p c') c' = c'.
Proof.
  intros c'. rewrite (keys_matching_nil p c'); [done|].
  intros k Hm. unfold c'. by rewrite lookup_delete_matching, Hm.
Qed.

(** The keys listed for a pattern are as many as the entries of the cache
    whose key matches. *)
Lemma length_filter_fmap {A B} (f : A → B) (P : B → Prop)
    `{∀ x, Decision (P x)} (l : list A) :
  length (filter P (f <$> l)) = length (filter (λ x, P (f x)) l).
Proof.
  induction l as [|a l IH]; [done|].
  cbn [fmap list_fmap]. rewrite !filter_cons.
  destruct (decide (P (f a))); cbn [length]; by rewrite IH.
Qed.

Lemma length_keys_matching (p : string) (c : gmap string string) :
  length (keys_matching p c)
  = size (filter (λ kv : string * string, glob_match p kv.1 = true) c).
Proof.
  unfold keys_matching. rewrite length_filter_fmap.
  rewrite map_filter_alt, map_size_list_to_map.
  - f_equal. apply list_filter_iff. intros [k v]. by rewrite Is_true_true.
  - eapply sublist_NoDup; [apply (NoDup_fst_map_to_list c)|].
    apply fmap_sublist, sublist_filter.
Qed.

(** ** Queries *)

Lemma list_filter_fmap_comm {A B} (f : A → B) (P : B → Prop)
    `{∀ x, Decision (P x)} (l : list A) :
  filter P (f <$> l) = f <$> filter (λ x, P (f x)) l.
Proof.
  induction l as [|a l IH]; [done|].
  cbn [fmap list_fmap]. rewrite !filter_cons.
  destruct (decide (P (f a))); cbn [fmap list_fmap]; by rewrite IH.
Qed.

Lemma omap_id_fmap {A B} (f : A → option B) (l : list A) :
  omap id (f <$> l) = omap f l.
Proof.
  induction l as [|a l IH]; [done|]. cbn. rewrite IH. by destruct (f a).
Qed.

Lemma omap_fmap_fuse {A B C} (g : B → option C) (f : A → B) (l : list A) :
  omap g (f <$> l) = omap (λ x, g (f x)) l.
Proof.
  induction l as [|a l IH]; [done|]. cbn. rewrite IH. by destruct (g (f a)).
Qed.

Lemma size_list_to_set_remove_dups (l : list string) :
  size (list_to_set l : gset string) = length (remove_dups l).
Proof.
  rewrite <-(size_list_to_set (C := gset string)) by apply NoDup_remove_dups.
  f_equal. apply set_eq. intros x.
  by rewrite !elem_of_list_to_set, elem_of_remove_dups.
Qed.

(** *** The events the statistics are drawn from *)

Lemma KeyTextTransform_Some (key : string) (col : gmap string json) (s : string) :
  KeyTextTransform key col = Some s ↔ col !! key = Some (JText s).
Proof.
  unfold KeyTextTransform. destruct (col !! key) as [[|t]|]; naive_solver.
Qed.

Lemma not_key_exact_null (key : string) (col : gmap string json) :
  sql_not (key_exact_null key col) = Some true
  ↔ is_Some (KeyTextTransform key col).
Proof.
  unfold key_exact_null, KeyTextTransform, sql_not.
  destruct (col !! key) as [[|t]|]; cbn; split;
    first [ by intros [? [=]] | by intros [=] | by eauto ].
Qed.

(** The filter and the exclusion keep the authorisation events whose
    context names an application; events without the key go with those
    where it is null. *)
Lemma considered_events (events : list EventRow) :
  qs_exclude (λ e, key_exact_null "authorized_application" (context e))
    (qs_filter (λ e, Some (bool_decide (action e = AUTHORIZE_APPLICATION)))
       events)
  = filter (λ e, action e = AUTHORIZE_APPLICATION
                 ∧ is_Some (KeyTextTransform "authorized_application" (context e)))
      events.
Proof.
  unfold qs_exclude, qs_filter. rewrite list_filter_filter.
  apply list_filter_iff. intros e. rewrite not_key_exact_null.
  split.
  - intros [Hk [= Ha]]. by apply bool_decide_eq_true in Ha.
  - intros [Ha Hk]. split; [done|]. f_equal. by apply bool_decide_eq_true.
Qed.

Lemma Count_group (qs : list AnnotatedEvent) (a : string) :
  Count (ann_application <$> group_rows qs (Some a))
  = length (group_rows qs (Some a)).
Proof.
  unfold Count, group_rows. induction qs as [|r qs IH]; [done|].
  rewrite filter_cons. destruct (decide _) as [Hr|Hr]; [|done].
  cbn. rewrite Hr. cbn. by rewrite IH.
Qed.

Lemma elem_of_aggregate (qs : list AnnotatedEvent) (r : AppRow) :
  r ∈ aggregate qs ↔
  ∃ k, k ∈ ann_application <$> qs
       ∧ r = {| application := k;
                total_logins := Count (ann_application <$> group_rows qs k);
                unique_users := Count_distinct (ann_user_pk <$> group_rows qs k) |}.
Proof.
  unfold aggregate. rewrite list_elem_of_fmap.
  split; intros (k & H1 & H2); exists k.
  - by rewrite <-elem_of_remove_dups.
  - by rewrite elem_of_remove_dups.
Qed.

Lemma aggregate_applications (qs : list AnnotatedEvent) :
  application <$> aggregate qs = remove_dups (ann_application <$> qs).
Proof.
  unfold aggregate. rewrite <-list_fmap_compose. apply list_fmap_id.
Qed.

Global Instance more_logins_transitive : Transitive more_logins.
Proof. unfold more_logins. intros r1 r2 r3. lia. Qed.

Global Instance more_logins_total : Total more_logins.
Proof. unfold more_logins. intros r1 r2. lia. Qed.

Lemma group_of_application (events : list EventRow) (a : string) :
  group_rows
    (annotate <$>
       qs_exclude (λ e, key_exact_null "authorized_application" (context e))
         (qs_filter (λ e, Some (bool_decide (action e = AUTHORIZE_APPLICATION)))
            events))
    (Some a)
  = annotate <$> filter (authorizes a) events.
Proof.
  unfold group_rows. rewrite list_filter_fmap_comm, considered_events.
  f_equal. rewrite list_filter_filter. apply list_filter_iff. intros e.
  cbn [ann_application annotate]. unfold authorizes.
  rewrite KeyTextTransform_Some. split.
  - by intros [Hk [Ha _]].
  - intros [Ha Hk]. split_and!; [done..|].
    exists a. by apply KeyTextTransform_Some.
Qed.

(** C5. The most used applications: at most 15 rows, by falling number of
    logins, no application twice; each row names an application and gives
    the number of authorisation events whose context names it (at least
    one) and the number of different users behind these events. *)
Theorem most_used_applications_spec (d : Database) :
  let rows := most_used_applications_query d in
  length rows ≤ 15
  ∧ StronglySorted more_logins rows
  ∧ NoDup (application <$> rows)
  ∧ Forall (λ r, ∃ a,
        application r = Some a
        ∧ 0 < total_logins r
        ∧ total_logins r = length (filter (authorizes a) (Event_objects d))
        ∧ unique_users r
          = size (users_of (filter (authorizes a) (Event_objects d))))
      rows.
Proof.
  intros rows. unfold rows, most_used_applications_query.
  set (qs := qs_exclude _ _). set (all := order_by_total_logins_desc _).
  assert (Hperm : all ≡ₚ aggregate (annotate <$> qs))
    by apply merge_sort_Permutation.
  split_and!.
  - rewrite length_take. lia.
  - apply (StronglySorted_app_1_l _ _ (drop 15 all)).
    rewrite take_drop. apply StronglySorted_merge_sort; apply _.
  - rewrite fmap_take. eapply sublist_NoDup; [|apply sublist_take].
    rewrite Hperm, aggregate_applications. apply NoDup_remove_dups.
  - apply Forall_forall. intros r Hr.
    eapply elem_of_sublist in Hr; [|apply sublist_take].
    rewrite Hperm in Hr. apply elem_of_aggregate in Hr as (k & Hk & ->).
    apply list_elem_of_fmap in Hk as (r' & -> & Hr').
    apply list_elem_of_fmap in Hr' as (e & -> & He).
    assert (He' := He). unfold qs in He'. rewrite considered_events in He'.
    apply list_elem_of_filter in He' as [[Ha [a Hk]] Hin].
    exists a. cbn [application total_logins unique_users ann_application annotate].
    rewrite Hk. unfold qs. rewrite Count_group, group_of_application.
    rewrite length_fmap. split_and!; [done| |done|].
    + assert (e ∈ filter (authorizes a) (Event_objects d)) as Hin'.
      { apply list_elem_of_filter. split; [|done].
        split; [done|]. by apply KeyTextTransform_Some. }
      destruct (filter (authorizes a) (Event_objects d)); cbn; [|lia].
      by apply elem_of_nil in Hin'.
    + unfold Count_distinct, users_of.
      rewrite size_list_to_set_remove_dups, omap_id_fmap.
      by rewrite omap_fmap_fuse.
Qed.

(** *** Joins *)

Lemma left_join_app {A B} (on : A → B → bool) (l1 l2 : list A) (r : list B) :
  left_join on (l1 ++ l2) r = left_join on l1 r ++ left_join on l2 r.
Proof. unfold left_join. apply bind_app. Qed.

Lemma left_join_cons {A B} (on : A → B → bool) (a : A) (l : list A)
    (r : list B) :
  left_join on (a :: l) r = left_join on [a] r ++ left_join on l r.
Proof. apply (left_join_app on [a] l). Qed.

Lemma List_filter_nil {B} (f : B → bool) (r : list B) :
  List.filter f r = [] ↔ ¬ Exists (λ b, f b = true) r.
Proof.
  induction r as [|b r IH]; cbn.
  - split; [|done]. intros _ H. inversion H.
  - destruct (f b) eqn:Hb.
    + split; [done|]. intros H. destruct H. by left.
    + rewrite IH. split.
      * intros H1 H2. inversion H2; subst; [congruence | done].
      * intros H1 H2. apply H1. by right.
Qed.

(** A left row without a partner is joined to NULL, once. *)
Lemma left_join_unmatched {A B} (on : A → B → bool) (a : A) (r : list B) :
  ¬ Exists (λ b, on a b = true) r → left_join on [a] r = [(a, None)].
Proof.
  intros H%List_filter_nil. unfold left_join. rewrite bind_singleton.
  by rewrite H.
Qed.

(** A left row with partners is joined to each of them, never to NULL. *)
Lemma left_join_matched {A B} (on : A → B → bool) (a : A) (r : list B) :
  Exists (λ b, on a b = true) r →
  Forall (λ row, row.1 = a ∧ is_Some row.2) (left_join on [a] r).
Proof.
  intros H. unfold left_join. rewrite bind_singleton.
  destruct (List.filter (on a) r) as [|b bs] eqn:Hf.
  - by apply List_filter_nil in Hf.
  - apply Forall_fmap, Forall_forall. intros b' _. cbn. eauto.
Qed.

Lemma left_join_fst {A B} (on : A → B → bool) (l : list A) (r : list B) :
  Forall (λ row, row.1 ∈ l) (left_join on l r).
Proof.
  apply Forall_forall. intros row Hrow. unfold left_join in Hrow.
  apply list_elem_of_bind in Hrow as (a & Hrow & Ha).
  destruct (List.filter (on a) r) as [|b bs].
  - apply list_elem_of_singleton in Hrow as ->. done.
  - apply list_elem_of_fmap in Hrow as (b' & -> & _). done.
Qed.

Lemma filter_none {A} (P : A → Prop) `{∀ x, Decision (P x)} (l : list A) :
  Forall (λ x, ¬ P x) l → filter P l = [].
Proof.
  intros Hl. induction Hl as [|x l Hx _ IH]; [done|].
  by rewrite filter_cons_False.
Qed.

(** The two joins and the two null tests select the policies that no
    binding and no prompt stage refers to, each once. *)
Lemma policies_without_binding_query_spec (d : Database) :
  policies_without_binding_query d
  = filter (λ p, ¬ bound d p ∧ ¬ validates_prompt_stage d p) (Policy_objects d).
Proof.
  unfold policies_without_binding_query.
  induction (Policy_objects d) as [|p ps IH]; [done|].
  rewrite left_join_cons, left_join_app, filter_app, fmap_app, IH.
  rewrite filter_cons. clear IH.
  destruct (decide (bound d p)) as [Hb|Hb].
  - rewrite decide_False by tauto. rewrite filter_none; [done|].
    assert (Hrows := left_join_matched
      (λ p b, bool_decide (binding_policy b = policy_uuid p)) p
      (PolicyBinding_objects d)).
    assert (Hfst := left_join_fst
      (λ (r : PolicyRow * option PolicyBindingRow) s,
         bool_decide (promptstage_policy s = policy_uuid r.1))
      (left_join (λ p b, bool_decide (binding_policy b = policy_uuid p))
         [p] (PolicyBinding_objects d))
      (PromptStage_validation_policies d)).
    assert (Hmatch : Exists
      (λ b, bool_decide (binding_policy b = policy_uuid p) = true)
      (PolicyBinding_objects d)).
    { eapply Exists_impl; [exact Hb|].
      intros b Hx. by apply bool_decide_eq_true. }
    specialize (Hrows Hmatch). rewrite Forall_forall in Hrows.
    eapply Forall_impl; [exact Hfst|]. intros row Hin [Hnull _].
    destruct (Hrows row.1 Hin) as [_ [b Hsome]]. congruence.
  - rewrite left_join_unmatched.
    2:{ intros H. apply Hb. eapply Exists_impl; [exact H|].
        intros b Hx. by apply bool_decide_eq_true in Hx. }
    destruct (decide (validates_prompt_stage d p)) as [Hs|Hs].
    + rewrite decide_False by tauto. rewrite filter_none; [done|].
      eapply Forall_impl.
      * apply left_join_matched. eapply Exists_impl; [exact Hs|].
        intros s Hx. by apply bool_decide_eq_true.
      * intros row [_ [s Hsome]] [_ Hnull]. congruence.
    + rewrite decide_True by tauto. rewrite left_join_unmatched; [done|].
      intros H. apply Hs. eapply Exists_impl; [exact H|].
      intros s Hx. by apply bool_decide_eq_true in Hx.
Qed.

(** The rows are the top of the list: an application that some event
    authorizes is among them, or there are 15 rows and none of them has
    fewer logins. *)
Lemma most_used_applications_top (d : Database) (a : string) :
  let rows := most_used_applications_query d in
  let n := length (filter (authorizes a) (Event_objects d)) in
  0 < n →
  Some a ∈ application <$> rows
  ∨ (length rows = 15 ∧ Forall (λ r, n ≤ total_logins r) rows).
Proof.
  intros rows n Hn. unfold rows, most_used_applications_query.
  set (qs := qs_exclude _ _). set (all := order_by_total_logins_desc _).
  assert (He : ∃ e, e ∈ filter (authorizes a) (Event_objects d)).
  { unfold n in Hn. destruct (filter _ _) as [|e l]; cbn in Hn; [lia|].
    exists e. left. }
  destruct He as [e [[Ha Hk] Hin]%list_elem_of_filter].
  apply KeyTextTransform_Some in Hk.
  assert (Hq : e ∈ qs).
  { unfold qs. rewrite considered_events. apply list_elem_of_filter.
    split; [|done]. split; [done|]. by rewrite Hk. }
  set (row := {| application := Some a; total_logins := n;
                 unique_users := Count_distinct
                   (ann_user_pk <$> group_rows (annotate <$> qs) (Some a)) |}).
  assert (Hrow : row ∈ all).
  { unfold all, order_by_total_logins_desc.
    rewrite merge_sort_Permutation. apply elem_of_aggregate.
    exists (Some a). split.
    - apply list_elem_of_fmap. exists (annotate e). split; [by cbn|].
      by apply list_elem_of_fmap_2.
    - unfold row, n, qs.
      by rewrite Count_group, group_of_application, length_fmap. }
  assert (Hsorted : StronglySorted more_logins (take 15 all ++ drop 15 all)).
  { rewrite take_drop. apply StronglySorted_merge_sort; apply _. }
  rewrite <-(take_drop 15 all) in Hrow.
  apply elem_of_app in Hrow as [Htake|Hdrop].
  - left. apply list_elem_of_fmap. by exists row.
  - right. split.
    + apply length_take_le.
      destruct (decide (15 ≤ length all)) as [|Hshort]; [done|].
      rewrite drop_ge in Hdrop by lia. by apply elem_of_nil in Hdrop.
    + apply Forall_forall. intros r Hr.
      apply (StronglySorted_app_1_elem_of _ _ _ r row Hsorted Hr Hdrop).
Qed.

(** ** Running a view *)

Lemma result_bind {A B} (m : M A) (f : A → M B) (w : World) :
  result (m ≫= f) w = result (f (result m w)) (after m w).
Proof. unfold result, after, mbind, M_bind. by destruct (m w). Qed.

Lemma after_bind {A B} (m : M A) (f : A → M B) (w : World) :
  after (m ≫= f) w = after (f (result m w)) (after m w).
Proof. unfold result, after, mbind, M_bind. by destruct (m w). Qed.

Ltac run :=
  unfold result, after, FormView_post, form_valid, form_invalid,
    cache_keys, cache_delete_many, LOGGER_debug, messages_success,
    cache_get, read_DEBUG, delay, query, mbind, M_bind, mret, M_ret;
  cbn.

Lemma lookup_TemplateView_context {Ver} (self key : string)
    (kwargs : gmap string (ctxval Ver)) (w : World) :
  key ≠ "view" →
  result (TemplateView_get_context_data self kwargs) w !! key = kwargs !! key.
Proof.
  intros Hne. unfold TemplateView_get_context_data. run.
  destruct (kwargs !! "view"); [done|]. by rewrite lookup_insert_ne.
Qed.

Section ViewProperties.

Context {Ver : Type}.
Variable parse : string → Ver.
Variable __version__ : string.
Variable VERSION_CACHE_KEY : string.
Variables PolicyCacheClearForm FlowCacheClearForm : Form.

Local Abbreviation latest_version :=
  (get_latest_version parse __version__ VERSION_CACHE_KEY).
Local Abbreviation context_data :=
  (get_context_data parse __version__ VERSION_CACHE_KEY).
Local Abbreviation policy_post :=
  (PolicyCacheClearView_post PolicyCacheClearForm).
Local Abbreviation flow_post :=
  (FlowCacheClearView_post FlowCacheClearForm).

(** *** The cache-clear views *)

(** Whatever the form says, the view hands the request to the generic
    form view in a world where the matching keys are already gone. *)
Lemma policy_post_unfold (request : HttpRequest) (w : World) :
  policy_post request w
  = let keys := keys_matching "policy_*" (cache w) in
    FormView_post (PolicyCacheClearView PolicyCacheClearForm) request
      (add_log {| log_event := "Cleared Policy cache"; log_keys := len keys |}
         (set_cache (delete_keys keys (cache w)) w)).
Proof. reflexivity. Qed.

Lemma flow_post_unfold (request : HttpRequest) (w : World) :
  flow_post request w
  = let keys := keys_matching "flow_*" (cache w) in
    FormView_post (FlowCacheClearView FlowCacheClearForm) request
      (add_log {| log_event := "Cleared flow cache"; log_keys := len keys |}
         (set_cache (delete_keys keys (cache w)) w)).
Proof. reflexivity. Qed.

Lemma FormView_post_cache (cls : FormViewClass) (request : HttpRequest)
    (w : World) :
  cache (after (FormView_post cls request) w) = cache w.
Proof.
  run. destruct (is_valid _ _); [|done].
  by destruct (text_truthy _).
Qed.

Lemma policy_post_cache (request : HttpRequest) (w : World) :
  cache (after (policy_post request) w)
  = delete_keys (keys_matching "policy_*" (cache w)) (cache w).
Proof.
  unfold after at 1. rewrite policy_post_unfold. cbv zeta.
  apply FormView_post_cache.
Qed.

Lemma flow_post_cache (request : HttpRequest) (w : World) :
  cache (after (flow_post request) w)
  = delete_keys (keys_matching "flow_*" (cache w)) (cache w).
Proof.
  unfold after at 1. rewrite flow_post_unfold. cbv zeta.
  apply FormView_post_cache.
Qed.

(** C1. A cache-clear view's [post] deletes exactly the keys that match
    its pattern: afterwards a key that starts with ["policy_"] (for the
    flow view, ["flow_"]) is not in the cache, and any other key holds
    what it held before. *)
Theorem cache_clear_post_deletes_exactly_matching
    (request : HttpRequest) (w : World) (k : string) :
  cache (after (policy_post request) w) !! k
  = (if String.prefix "policy_" k then None else cache w !! k)
  ∧ cache (after (flow_post request) w) !! k
    = (if String.prefix "flow_" k then None else cache w !! k).
Proof.
  rewrite policy_post_cache, flow_post_cache.
  rewrite !lookup_delete_matching.
  by rewrite glob_policy, glob_flow.
Qed.

(** C10. Clearing is idempotent: a second [post] leaves the cache as the
    first one left it, and a [post] on a cache without a key of its own
    pattern leaves the cache as it was, whatever keys of the other
    pattern the cache holds. *)
Theorem cache_clear_post_idempotent
    (request request' : HttpRequest) (w wp wf : World)
    (Hpolicy : ∀ k, String.prefix "policy_" k = true → cache wp !! k = None)
    (Hflow : ∀ k, String.prefix "flow_" k = true → cache wf !! k = None) :
  cache (after (policy_post request') (after (policy_post request) w))
  = cache (after (policy_post request) w)
  ∧ cache (after (flow_post request') (after (flow_post request) w))
    = cache (after (flow_post request) w)
  ∧ cache (after (policy_post request) wp) = cache wp
  ∧ cache (after (flow_post request) wf) = cache wf.
Proof.
  repeat split.
  - rewrite (policy_post_cache request'), (policy_post_cache request).
    apply delete_matching_twice.
  - rewrite (flow_post_cache request'), (flow_post_cache request).
    apply delete_matching_twice.
  - rewrite policy_post_cache, keys_matching_nil; [done|].
    intros k Hk. apply Hpolicy. by rewrite <-glob_policy.
  - rewrite flow_post_cache, keys_matching_nil; [done|].
    intros k Hk. apply Hflow. by rewrite <-glob_flow.
Qed.

(** C8. When the submitted form is valid, a cache-clear view answers
    with a redirect to the overview page and adds one success message. *)
Theorem cache_clear_post_valid_redirects
    (request request' : HttpRequest) (w w' : World)
    (Hpolicy : is_valid PolicyCacheClearForm (POST request) = true)
    (Hflow : is_valid FlowCacheClearForm (POST request') = true) :
  (result (policy_post request) w
   = HttpResponseRedirect (reverse_lazy "passbook_admin:overview")
   ∧ messages (after (policy_post request) w)
     = messages w ++ [(SUCCESS, gettext "Successfully cleared Policy cache")])
  ∧ (result (flow_post request') w'
     = HttpResponseRedirect (reverse_lazy "passbook_admin:overview")
     ∧ messages (after (flow_post request') w')
       = messages w' ++ [(SUCCESS, gettext "Successfully cleared Flow cache")]).
Proof.
  unfold result, after. rewrite policy_post_unfold, flow_post_unfold.
  cbv zeta. unfold FormView_post. cbn [form_class PolicyCacheClearView
    FlowCacheClearView]. rewrite Hpolicy, Hflow. done.
Qed.

(** C9. The keys are deleted before the form is looked at: the generic
    form view runs in a world without them, and a request whose form is
    invalid gets the form page again, with no message, from a cache
    that has lost the matching keys all the same. *)
Theorem cache_clear_post_invalid_still_deletes
    (request request' : HttpRequest) (w w' : World) (k : string)
    (Hpolicy : is_valid PolicyCacheClearForm (POST request) = false)
    (Hflow : is_valid FlowCacheClearForm (POST request') = false) :
  (result (policy_post request) w = TemplateResponse "generic/form_non_model.html"
   ∧ messages (after (policy_post request) w) = messages w
   ∧ cache (after (policy_post request) w) !! k
     = (if String.prefix "policy_" k then None else cache w !! k))
  ∧ (result (flow_post request') w' = TemplateResponse "generic/form_non_model.html"
     ∧ messages (after (flow_post request') w') = messages w'
     ∧ cache (after (flow_post request') w') !! k
       = (if String.prefix "flow_" k then None else cache w' !! k)).
Proof.
  split.
  - split_and!.
    + unfold result. rewrite policy_post_unfold. cbv zeta.
      unfold FormView_post. cbn [form_class PolicyCacheClearView].
      by rewrite Hpolicy.
    + unfold after. rewrite policy_post_unfold. cbv zeta.
      unfold FormView_post. cbn [form_class PolicyCacheClearView].
      by rewrite Hpolicy.
    + rewrite policy_post_cache, lookup_delete_matching.
      by rewrite glob_policy.
  - split_and!.
    + unfold result. rewrite flow_post_unfold. cbv zeta.
      unfold FormView_post. cbn [form_class FlowCacheClearView].
      by rewrite Hflow.
    + unfold after. rewrite flow_post_unfold. cbv zeta.
      unfold FormView_post. cbn [form_class FlowCacheClearView].
      by rewrite Hflow.
    + rewrite flow_post_cache, lookup_delete_matching.
      by rewrite glob_flow.
Qed.

(** *** The overview *)

Lemma get_latest_version_after (w : World) :
  after latest_version w
  = if negb (truthy (cache w !! VERSION_CACHE_KEY)) && negb (settings_DEBUG w)
    then add_task update_latest_version w else w.
Proof.
  unfold get_latest_version. run.
  destruct (cache w !! VERSION_CACHE_KEY) as [[|c v]|]; cbn;
    by destruct (settings_DEBUG w).
Qed.

Lemma get_latest_version_db (w : World) :
  db (after latest_version w) = db w.
Proof. rewrite get_latest_version_after. by destruct (_ && _). Qed.

Lemma get_latest_version_cache (w : World) :
  cache (after latest_version w) = cache w.
Proof. rewrite get_latest_version_after. by destruct (_ && _). Qed.

(** The world after the overview is the world after the version lookup. *)
Lemma get_context_data_after (kwargs : gmap string (ctxval Ver)) (w : World) :
  after (context_data kwargs) w = after latest_version w.
Proof.
  unfold after, get_context_data, query, cache_keys,
    get_most_used_applications, TemplateView_get_context_data,
    mbind, M_bind, mret, M_ret.
  cbn -[get_latest_version]. by destruct (latest_version w).
Qed.

(** Looking up a key of the context, other than ["view"]. *)
Ltac context_lookup w :=
  unfold get_context_data, result, query, cache_keys,
    get_most_used_applications, mbind, M_bind;
  cbn -[get_latest_version];
  pose proof (get_latest_version_db w) as Hdb;
  pose proof (get_latest_version_cache w) as Hcache;
  unfold after in Hdb, Hcache;
  destruct (latest_version w) as [v w1]; cbn [snd] in Hdb, Hcache;
  rewrite Hdb, Hcache;
  match goal with
  | |- (TemplateView_get_context_data ?self ?kw ?w').1 !! ?key = _ =>
      change ((TemplateView_get_context_data self kw w').1)
        with (result (TemplateView_get_context_data self kw) w');
      rewrite (lookup_TemplateView_context self key kw w') by done
  end;
  repeat (rewrite lookup_insert_ne by done);
  rewrite lookup_insert_eq.

(** C2. The overview shows the number of policies, the number of
    providers, and the number of users less one. *)
Theorem get_context_data_counts (kwargs : gmap string (ctxval Ver))
    (w : World) :
  result (context_data kwargs) w !! "policy_count"
  = Some (CInt (Z.of_nat (length (Policy_objects (db w)))))
  ∧ result (context_data kwargs) w !! "provider_count"
    = Some (CInt (Z.of_nat (length (Provider_objects (db w)))))
  ∧ result (context_data kwargs) w !! "user_count"
    = Some (CInt (Z.of_nat (length (User_objects (db w))) - 1)).
Proof. split_and!; by context_lookup w. Qed.

(** C4, as the code has it. [policies_without_binding] is the number of
    policies that no binding refers to and that validate no prompt
    stage. *)
Theorem get_context_data_policies_without_binding
    (kwargs : gmap string (ctxval Ver)) (w : World) :
  result (context_data kwargs) w !! "policies_without_binding"
  = Some (CInt (Z.of_nat (length
      (filter (λ p, ¬ bound (db w) p ∧ ¬ validates_prompt_stage (db w) p)
         (Policy_objects (db w)))))).
Proof.
  context_lookup w. by rewrite policies_without_binding_query_spec.
Qed.

(** C7. [cached_policies] and [cached_flows] are the numbers of cache
    entries whose key starts with ["policy_"] and with ["flow_"]. *)
Theorem get_context_data_cached_counts (kwargs : gmap string (ctxval Ver))
    (w : World) :
  result (context_data kwargs) w !! "cached_policies"
  = Some (CInt (Z.of_nat (size (entries_with_prefix "policy_" (cache w)))))
  ∧ result (context_data kwargs) w !! "cached_flows"
    = Some (CInt (Z.of_nat (size (entries_with_prefix "flow_" (cache w))))).
Proof.
  unfold entries_with_prefix. split.
  - context_lookup w. unfold len. rewrite length_keys_matching.
    do 4 f_equal. apply map_filter_ext. intros k x _.
    change (glob_match "policy_*" k = true ↔ String.prefix "policy_" k = true).
    by rewrite glob_policy.
  - context_lookup w. unfold len. rewrite length_keys_matching.
    do 4 f_equal. apply map_filter_ext. intros k x _.
    change (glob_match "flow_*" k = true ↔ String.prefix "flow_" k = true).
    by rewrite glob_flow.
Qed.

(** C3, as the code has it. A cached version that is not empty is parsed
    and returned, and nothing else happens. Without one (no entry, or an
    empty one) the project's own version is parsed and returned, and the
    version check is enqueued unless [DEBUG] is set. *)
Theorem get_latest_version_spec (w w' : World) (v : string)
    (Hcached : cache w !! VERSION_CACHE_KEY = Some v)
    (Hnonempty : v ≠ "")
    (Hmissing : cache w' !! VERSION_CACHE_KEY = None
                ∨ cache w' !! VERSION_CACHE_KEY = Some "") :
  (result latest_version w = parse v ∧ after latest_version w = w)
  ∧ (result latest_version w' = parse __version__
     ∧ after latest_version w'
       = if settings_DEBUG w' then w'
         else add_task update_latest_version w').
Proof.
  split.
  - unfold get_latest_version. run. rewrite Hcached.
    by destruct v.
  - unfold get_latest_version. run.
    destruct Hmissing as [-> | ->]; cbn; by destruct (settings_DEBUG w').
Qed.

(** C6, as the code has it. The overview changes neither the database
    nor the cache (nor the messages, the log or the settings); all it
    may do is enqueue one version check, which it does exactly when the
    cache has no version that is not empty and [DEBUG] is off. *)
Theorem get_context_data_read_only (kwargs : gmap string (ctxval Ver))
    (w : World) :
  let w' := after (context_data kwargs) w in
  db w' = db w
  ∧ cache w' = cache w
  ∧ messages w' = messages w
  ∧ log w' = log w
  ∧ settings_DEBUG w' = settings_DEBUG w
  ∧ celery w'
    = if negb (truthy (cache w !! VERSION_CACHE_KEY))
         && negb (settings_DEBUG w)
      then celery w ++ [update_latest_version]
      else celery w.
Proof.
  cbv zeta. rewrite get_context_data_after, get_latest_version_after.
  by destruct (_ && _).
Qed.

End ViewProperties.

(** ** The views on sample data *)

Example glob_match_samples :
  glob_match "policy_*" "policy_42" = true
  ∧ glob_match "policy_*" "policy_" = true
  ∧ glob_match "policy_*" "policy" = false
  ∧ glob_match "flow_*" "policy_flow_1" = false
  ∧ glob_match "p?l*y*" "policy_1" = true.
Proof. by vm_compute. Qed.

Example most_used_applications_sample :
  most_used_applications_query sample_events_database
  = [ {| application := Some "gitlab"; total_logins := 3; unique_users := 2 |};
      {| application := Some "grafana"; total_logins := 1; unique_users := 1 |} ].
Proof. by vm_compute. Qed.

Example policy_post_sample :
  let w := world_of empty_database sample_cache false in
  let w' := after (PolicyCacheClearView_post fieldless_form empty_request) w in
  map_to_list (cache w')
  = [("flow_login", "plan"); ("passbook_latest_version", "0.10.1")]
  ∧ log w' = [{| log_event := "Cleared Policy cache"; log_keys := 2 |}].
Proof. by vm_compute. Qed.

Example user_count_without_users :
  result (get_context_data sample_parse sample_version sample_key ∅)
    (world_of empty_database ∅ true) !! "user_count"
  = Some (CInt (-1)).
Proof. by vm_compute. Qed.

(** The valid path on a form without fields. *)
Lemma cache_clear_post_valid_redirects_witness :
  let w := world_of empty_database sample_cache false in
  (is_valid fieldless_form (POST empty_request) = true)
  ∧ (result (PolicyCacheClearView_post fieldless_form empty_request) w
     = HttpResponseRedirect (reverse_lazy "passbook_admin:overview")
     ∧ messages (after (PolicyCacheClearView_post fieldless_form empty_request) w)
       = messages w ++ [(SUCCESS, gettext "Successfully cleared Policy cache")])
  ∧ (result (FlowCacheClearView_post fieldless_form empty_request) w
     = HttpResponseRedirect (reverse_lazy "passbook_admin:overview")
     ∧ messages (after (FlowCacheClearView_post fieldless_form empty_request) w)
       = messages w ++ [(SUCCESS, gettext "Successfully cleared Flow cache")]).
Proof.
  intros w. split; [reflexivity|].
  apply (cache_clear_post_valid_redirects fieldless_form fieldless_form
           empty_request empty_request w w); reflexivity.
Defined.

(** The invalid path: a form with a required field and a submission
    without it. *)
Lemma cache_clear_post_invalid_still_deletes_witness :
  let w := world_of empty_database sample_cache false in
  let k := "policy_1" in
  (is_valid confirm_form (POST empty_request) = false)
  ∧ (result (PolicyCacheClearView_post confirm_form empty_request) w
     = TemplateResponse "generic/form_non_model.html"
     ∧ messages (after (PolicyCacheClearView_post confirm_form empty_request) w)
       = messages w
     ∧ cache (after (PolicyCacheClearView_post confirm_form empty_request) w) !! k
       = (if String.prefix "policy_" k then None else cache w !! k))
  ∧ (result (FlowCacheClearView_post confirm_form empty_request) w
     = TemplateResponse "generic/form_non_model.html"
     ∧ messages (after (FlowCacheClearView_post confirm_form empty_request) w)
       = messages w
     ∧ cache (after (FlowCacheClearView_post confirm_form empty_request) w) !! k
       = (if String.prefix "flow_" k then None else cache w !! k)).
Proof.
  intros w k. split; [reflexivity|].
  apply (cache_clear_post_invalid_still_deletes confirm_form confirm_form
           empty_request empty_request w w k); reflexivity.
Defined.

(** For the policy view a cache with a flow entry and no policy entry,
    for the flow view a cache with a policy entry and no flow entry. *)
Lemma cache_clear_post_idempotent_witness :
  let w := world_of empty_database sample_cache false in
  let wp := world_of empty_database flow_only_cache false in
  let wf := world_of empty_database policy_only_cache false in
  let policy_post := PolicyCacheClearView_post fieldless_form empty_request in
  let flow_post := FlowCacheClearView_post fieldless_form empty_request in
  (cache wp !! "flow_login" = Some "plan")
  ∧ (cache wf !! "policy_1" = Some "pass")
  ∧ cache (after policy_post (after policy_post w)) = cache (after policy_post w)
  ∧ cache (after flow_post (after flow_post w)) = cache (after flow_post w)
  ∧ cache (after policy_post wp) = cache wp
  ∧ cache (after flow_post wf) = cache wf.
Proof.
  intros w wp wf policy_post flow_post.
  split; [by vm_compute|]. split; [by vm_compute|].
  apply (cache_clear_post_idempotent fieldless_form fieldless_form
           empty_request empty_request w wp wf).
  - intros k Hk. unfold wp, world_of, flow_only_cache, version_only_cache.
    cbn [cache].
    destruct (decide (k = "flow_login")) as [->|Hflow]; [discriminate Hk|].
    destruct (decide (k = "passbook_latest_version")) as [->|Hversion];
      [discriminate Hk|].
    rewrite lookup_insert_ne by congruence.
    apply lookup_singleton_ne. congruence.
  - intros k Hk. unfold wf, world_of, policy_only_cache, version_only_cache.
    cbn [cache].
    destruct (decide (k = "policy_1")) as [->|Hpolicy]; [discriminate Hk|].
    destruct (decide (k = "passbook_latest_version")) as [->|Hversion];
      [discriminate Hk|].
    rewrite lookup_insert_ne by congruence.
    apply lookup_singleton_ne. congruence.
Defined.

(** A cache with a version, and a cache whose version entry is empty. *)
Lemma get_latest_version_spec_witness :
  let w := world_of empty_database sample_cache false in
  let w' := world_of empty_database empty_version_cache false in
  let latest := get_latest_version sample_parse sample_version sample_key in
  (cache w !! sample_key = Some "0.10.1")
  ∧ (cache w' !! sample_key = Some "")
  ∧ (result latest w = sample_parse "0.10.1" ∧ after latest w = w)
  ∧ (result latest w' = sample_parse sample_version
     ∧ after latest w'
       = if settings_DEBUG w' then w' else add_task update_latest_version w').
Proof.
  intros w w' latest.
  split; [by vm_compute|]. split; [by vm_compute|].
  apply (get_latest_version_spec sample_parse sample_version sample_key
           w w' "0.10.1").
  - by vm_compute.
  - discriminate.
  - right. by vm_compute.
Defined.

(** ** Where the code differs *)

(** C3. With an empty string under the version key there is an entry,
    yet the view returns the project's own version and enqueues the
    version check. *)
Lemma get_latest_version_empty_entry_counterexample :
  let w := world_of empty_database empty_version_cache false in
  let latest := get_latest_version sample_parse sample_version sample_key in
  cache w !! sample_key = Some ""
  ∧ result latest w = sample_parse sample_version
  ∧ result latest w ≠ sample_parse ""
  ∧ celery w = []
  ∧ celery (after latest w) = [update_latest_version].
Proof. by vm_compute. Qed.

(** C4. A policy without bindings that validates a prompt stage is not
    counted. *)
Lemma policies_without_binding_prompt_stage_counterexample :
  let w := world_of prompt_policy_database ∅ true in
  result (get_context_data sample_parse sample_version sample_key ∅) w
    !! "policies_without_binding" = Some (CInt 0)
  ∧ length (filter (λ p, ¬ bound (db w) p) (Policy_objects (db w))) = 1.
Proof. by vm_compute. Qed.

(** C6. With an empty string under the version key the cached version is
    there, [DEBUG] is off, and the overview enqueues the version check. *)
Lemma get_context_data_empty_entry_counterexample :
  let w := world_of empty_database empty_version_cache false in
  let w' := after (get_context_data sample_parse sample_version sample_key ∅) w in
  cache w !! sample_key = Some ""
  ∧ settings_DEBUG w = false
  ∧ celery w = []
  ∧ celery w' = [update_latest_version].
Proof. by vm_compute. Qed.

(** * Further properties *)

(** ** The statistics as a whole *)

Lemma named_application_Some (e : EventRow) (a : string) :
  named_application e = Some a ↔ authorizes a e.
Proof.
  unfold named_application, authorizes.
  rewrite <-KeyTextTransform_Some.
  destruct (decide (action e = AUTHORIZE_APPLICATION)) as [Ha|Ha]; [tauto|].
  split; [discriminate | by intros [? _]].
Qed.

Lemma elem_of_authorized_applications (d : Database) (a : string) :
  a ∈ authorized_applications d ↔ ∃ e, e ∈ Event_objects d ∧ authorizes a e.
Proof.
  unfold authorized_applications.
  rewrite elem_of_list_to_set, list_elem_of_omap.
  split; intros (e & He & Ha); exists e; split; try done;
    by apply named_application_Some.
Qed.

Lemma remove_dups_fmap_Some {A} `{EqDecision A} (l : list A) :
  remove_dups (Some <$> l) = Some <$> remove_dups l.
Proof.
  induction l as [|x l IH]; [done|]. cbn.
  destruct (decide_rel elem_of (Some x) (Some <$> l)) as [Hin|Hin];
    destruct (decide_rel elem_of x l) as [Hin'|Hin']; cbn; rewrite ?IH; try done.
  - exfalso. apply Hin'. apply list_elem_of_fmap in Hin as (y & [= ->] & Hy). done.
  - exfalso. apply Hin. by apply list_elem_of_fmap_2.
Qed.

Lemma length_remove_dups {A} `{EqDecision A} (l : list A) :
  length (remove_dups l) ≤ length l.
Proof.
  induction l as [|x l IH]; [done|]. cbn.
  destruct (decide_rel elem_of x l); cbn; lia.
Qed.

Lemma length_omap_le {A B} (f : A → option B) (l : list A) :
  length (omap f l) ≤ length l.
Proof.
  induction l as [|x l IH]; [done|]. cbn. destruct (f x); cbn; lia.
Qed.

(** The applications of the considered events, in table order. *)
Lemma considered_applications (events : list EventRow) :
  ann_application <$>
    (annotate <$>
       qs_exclude (λ e, key_exact_null "authorized_application" (context e))
         (qs_filter (λ e, Some (bool_decide (action e = AUTHORIZE_APPLICATION)))
            events))
  = Some <$> omap named_application events.
Proof.
  rewrite considered_events.
  induction events as [|e events IH]; [done|].
  rewrite filter_cons. cbn [omap list_omap]. unfold named_application at 1.
  destruct (decide (action e = AUTHORIZE_APPLICATION)) as [Ha|Ha].
  - destruct (KeyTextTransform "authorized_application" (context e))
      as [a|] eqn:Hk.
    + rewrite decide_True by (split; [done | eauto]).
      cbn [fmap list_fmap ann_application annotate].
      rewrite Hk. f_equal. exact IH.
    + rewrite decide_False; [exact IH|].
      intros [_ [a Hsome]]. congruence.
  - rewrite decide_False by tauto. exact IH.
Qed.

(** One row per authorised application, with the statistics of the
    event table. *)
Lemma aggregate_considered (d : Database) :
  aggregate
    (annotate <$>
       qs_exclude (λ e, key_exact_null "authorized_application" (context e))
         (qs_filter (λ e, Some (bool_decide (action e = AUTHORIZE_APPLICATION)))
            (Event_objects d)))
  = application_row d <$> remove_dups (omap named_application (Event_objects d)).
Proof.
  unfold aggregate. rewrite considered_applications, remove_dups_fmap_Some.
  rewrite <-list_fmap_compose. apply list_fmap_ext. intros _ a _. cbn.
  unfold application_row. rewrite Count_group, group_of_application.
  rewrite length_fmap. f_equal.
  unfold Count_distinct, users_of.
  by rewrite size_list_to_set_remove_dups, omap_id_fmap, omap_fmap_fuse.
Qed.

Lemma most_used_applications_rows (d : Database) :
  most_used_applications_query d
  = take 15 (merge_sort more_logins
               (application_row d
                  <$> remove_dups (omap named_application (Event_objects d)))).
Proof.
  unfold most_used_applications_query, order_by_total_logins_desc.
  cbv zeta. by rewrite aggregate_considered.
Qed.

Lemma elem_of_most_used_applications (d : Database) (r : AppRow) :
  r ∈ most_used_applications_query d →
  ∃ a, r = application_row d a ∧ a ∈ authorized_applications d.
Proof.
  rewrite most_used_applications_rows. intros Hr.
  eapply elem_of_sublist in Hr; [|apply sublist_take].
  set (rows := application_row d <$> _) in Hr.
  assert (Hperm : merge_sort more_logins rows ≡ₚ rows)
    by apply merge_sort_Permutation.
  rewrite Hperm in Hr. unfold rows in Hr.
  apply list_elem_of_fmap in Hr as (a & -> & Ha).
  exists a. split; [done|]. apply elem_of_list_to_set.
  by apply elem_of_remove_dups.
Qed.

Lemma length_most_used_applications (d : Database) :
  length (most_used_applications_query d)
  = 15 `min` length (remove_dups (omap named_application (Event_objects d))).
Proof.
  rewrite most_used_applications_rows, length_take.
  by rewrite merge_sort_Permutation, length_fmap.
Qed.

(** The list has a row for every authorised application, up to 15. *)
Theorem most_used_applications_length (d : Database) :
  length (most_used_applications_query d)
  = 15 `min` size (authorized_applications d).
Proof.
  rewrite length_most_used_applications. unfold authorized_applications.
  by rewrite size_list_to_set_remove_dups.
Qed.

(** No row shows more users than logins. *)
Theorem most_used_applications_users_le_logins (d : Database) :
  Forall (λ r, unique_users r ≤ total_logins r) (most_used_applications_query d).
Proof.
  apply Forall_forall. intros r Hr.
  apply elem_of_most_used_applications in Hr as (a & -> & _).
  cbn. unfold users_of. rewrite size_list_to_set_remove_dups.
  etrans; [apply length_remove_dups|]. apply length_omap_le.
Qed.

Lemma most_used_applications_nil (d : Database) :
  most_used_applications_query d = []
  ↔ Forall (λ e, named_application e = None) (Event_objects d).
Proof.
  rewrite <-length_zero_iff_nil, length_most_used_applications. split.
  - intros Hlen. apply Forall_forall. intros e He.
    destruct (named_application e) as [a|] eqn:Ha; [|done].
    assert (a ∈ remove_dups (omap named_application (Event_objects d))) as Hin.
    { apply elem_of_remove_dups, list_elem_of_omap. eauto. }
    destruct (remove_dups _); [by apply elem_of_nil in Hin | cbn in Hlen; lia].
  - intros Hall.
    replace (omap named_application (Event_objects d)) with (@nil string);
      [done|].
    symmetry. induction Hall as [|e l He _ IH]; [done|]. cbn. by rewrite He.
Qed.

(** The list is empty exactly when no event authorises an application:
    an empty event table, events of other actions, and events whose
    application is null or missing all give no row. *)
Theorem most_used_applications_empty (d : Database) :
  most_used_applications_query d = []
  ↔ ∀ e a, e ∈ Event_objects d → ¬ authorizes a e.
Proof.
  rewrite most_used_applications_nil, Forall_forall. split.
  - intros H e a He Ha%named_application_Some. rewrite (H e He) in Ha. done.
  - intros H e He. destruct (named_application e) as [a|] eqn:Ha; [|done].
    apply named_application_Some in Ha. by destruct (H e a He).
Qed.

(** *** The logins add up *)

Lemma length_filter_authorizes (events : list EventRow) (a : string) :
  length (filter (authorizes a) events)
  = length (filter (λ x, x = a) (omap named_application events)).
Proof.
  induction events as [|e events IH]; [done|].
  rewrite filter_cons. cbn [omap list_omap].
  destruct (named_application e) as [b|] eqn:Hb.
  - rewrite filter_cons. destruct (decide (b = a)) as [->|Hne].
    + rewrite decide_True by by apply named_application_Some.
      cbn. by rewrite IH.
    + rewrite decide_False; [done|].
      intros Ha%named_application_Some. congruence.
  - rewrite decide_False; [done|].
    intros Ha%named_application_Some. congruence.
Qed.

(** The sizes of the groups of different keys add up to the number of
    elements that have one of the keys. *)
Lemma sum_group_sizes {A} `{EqDecision A} (l keys : list A) :
  NoDup keys →
  sum_list_with (λ a, length (filter (λ x, x = a) l)) keys
  = length (filter (λ x, x ∈ keys) l).
Proof.
  intros Hkeys. induction Hkeys as [|k keys Hk _ IH]; cbn.
  - symmetry. apply length_zero_iff_nil, filter_none, Forall_forall.
    intros x _ Hx. by apply elem_of_nil in Hx.
  - rewrite IH. clear IH. induction l as [|x l IHl]; [done|].
    rewrite !filter_cons.
    destruct (decide (x = k)) as [->|Hne].
    + rewrite decide_False by done. rewrite decide_True by left.
      cbn. lia.
    + destruct (decide (x ∈ keys)) as [Hin|Hin].
      * rewrite decide_True by by right. cbn. lia.
      * rewrite decide_False; [lia|].
        intros [?|?]%elem_of_cons; done.
Qed.

Lemma sum_list_with_fmap {A B} (f : B → nat) (g : A → B) (l : list A) :
  sum_list_with f (g <$> l) = sum_list_with (λ x, f (g x)) l.
Proof. induction l as [|x l IH]; [done|]. cbn. by rewrite IH. Qed.

Lemma sum_list_with_pointwise {A} (f g : A → nat) (l : list A) :
  (∀ x, f x = g x) → sum_list_with f l = sum_list_with g l.
Proof.
  intros Hfg. induction l as [|x l IH]; [done|]. cbn. by rewrite Hfg, IH.
Qed.

Lemma length_named_applications (events : list EventRow) :
  length (omap named_application events)
  ≤ length (filter (λ e, action e = AUTHORIZE_APPLICATION) events).
Proof.
  induction events as [|e events IH]; [done|].
  rewrite filter_cons. cbn [omap list_omap]. unfold named_application at 1.
  destruct (decide (action e = AUTHORIZE_APPLICATION)); [|done].
  destruct (KeyTextTransform _ _); cbn; lia.
Qed.

(** The logins of the rows together are no more than the authorisation
    events of the table: no event is counted twice. *)
Theorem most_used_applications_total_le_events (d : Database) :
  sum_list_with total_logins (most_used_applications_query d)
  ≤ length (filter (λ e, action e = AUTHORIZE_APPLICATION) (Event_objects d)).
Proof.
  rewrite most_used_applications_rows.
  set (keys := remove_dups (omap named_application (Event_objects d))).
  set (all := merge_sort more_logins (application_row d <$> keys)).
  assert (Hperm : all ≡ₚ application_row d <$> keys)
    by apply merge_sort_Permutation.
  trans (sum_list_with total_logins all).
  { rewrite <-(take_drop 15 all) at 2. rewrite sum_list_with_app. lia. }
  rewrite Hperm, sum_list_with_fmap. cbn [total_logins application_row].
  rewrite (sum_list_with_pointwise _
             (λ a, length (filter (λ x, x = a)
                             (omap named_application (Event_objects d)))))
    by (intros a; apply length_filter_authorizes).
  rewrite sum_group_sizes by apply NoDup_remove_dups.
  etrans; [apply length_filter|]. apply length_named_applications.
Qed.

(** The top of the list, on the sample events. *)
Lemma most_used_applications_top_witness :
  0 < length (filter (authorizes "gitlab") (Event_objects sample_events_database))
  ∧ (Some "gitlab"
       ∈ application <$> most_used_applications_query sample_events_database
     ∨ (length (most_used_applications_query sample_events_database) = 15
        ∧ Forall
            (λ r, length (filter (authorizes "gitlab")
                            (Event_objects sample_events_database))
                  ≤ total_logins r)
            (most_used_applications_query sample_events_database))).
Proof.
  split; [vm_compute; lia|].
  apply (most_used_applications_top sample_events_database "gitlab").
  vm_compute; lia.
Defined.

(** *** Providers without an application *)

(** The join and the null test select the providers that no application
    refers to, each once. (The model lists them in table order; the
    database may use another.) *)
Lemma providers_without_application_query_spec (d : Database) :
  providers_without_application_query d
  = filter (λ p, ¬ has_application d p) (Provider_objects d).
Proof.
  unfold providers_without_application_query.
  induction (Provider_objects d) as [|p ps IH]; [done|].
  rewrite left_join_cons, filter_app, fmap_app, IH, filter_cons. clear IH.
  destruct (decide (has_application d p)) as [Hp|Hp].
  - rewrite decide_False by tauto. rewrite filter_none; [done|].
    eapply Forall_impl.
    + apply left_join_matched. eapply Exists_impl; [exact Hp|].
      intros a Ha. by apply bool_decide_eq_true.
    + intros row [_ [a Hsome]] Hnull. congruence.
  - rewrite decide_True by done. rewrite left_join_unmatched; [done|].
    intros H. apply Hp. eapply Exists_impl; [exact H|].
    intros a Ha. by apply bool_decide_eq_true in Ha.
Qed.

(** ** The cache after a clear *)

Lemma delete_matching_filter (p : string) (c : gmap string string) :
  delete_keys (keys_matching p c) c
  = filter (λ kv : string * string, glob_match p kv.1 = false) c.
Proof.
  apply map_eq. intros k. rewrite lookup_delete_matching.
  destruct (glob_match p k) eqn:Hm.
  - symmetry. apply map_lookup_filter_None. right. intros v _. cbn. congruence.
  - destruct (c !! k) as [v|] eqn:Hk.
    + symmetry. by apply map_lookup_filter_Some.
    + symmetry. apply map_lookup_filter_None. by left.
Qed.

Lemma size_delete_matching (p : string) (c : gmap string string) :
  size (delete_keys (keys_matching p c) c) + length (keys_matching p c)
  = size c.
Proof.
  rewrite delete_matching_filter, length_keys_matching.
  rewrite <-(map_filter_union_complement
               (λ kv : string * string, glob_match p kv.1 = true) c) at 3.
  rewrite map_size_disj_union by apply map_disjoint_filter_complement.
  rewrite Nat.add_comm. do 2 f_equal.
  apply map_filter_ext. intros k v _. cbn. by destruct (glob_match p k).
Qed.

(** No key starts with both prefixes. *)
Lemma prefixes_apart (k : string) :
  String.prefix "policy_" k = true → String.prefix "flow_" k = false.
Proof.
  destruct k as [|c k]; [done|]. cbn [String.prefix].
  destruct (ascii_dec "p" c) as [<-|]; [|discriminate]. intros _.
  by destruct (ascii_dec "f" "p") as [[=]|].
Qed.

Lemma length_policy_keys (c : gmap string string) :
  length (keys_matching "policy_*" c) = size (entries_with_prefix "policy_" c).
Proof.
  rewrite length_keys_matching. unfold entries_with_prefix. f_equal.
  apply map_filter_ext. intros k v _.
  change (glob_match "policy_*" k = true ↔ String.prefix "policy_" k = true).
  by rewrite glob_policy.
Qed.

Lemma length_flow_keys (c : gmap string string) :
  length (keys_matching "flow_*" c) = size (entries_with_prefix "flow_" c).
Proof.
  rewrite length_keys_matching. unfold entries_with_prefix. f_equal.
  apply map_filter_ext. intros k v _.
  change (glob_match "flow_*" k = true ↔ String.prefix "flow_" k = true).
  by rewrite glob_flow.
Qed.

(** Clearing one family of keys leaves the entries of the other. *)
Lemma flow_entries_delete_policy (c : gmap string string) :
  entries_with_prefix "flow_" (delete_keys (keys_matching "policy_*" c) c)
  = entries_with_prefix "flow_" c.
Proof.
  rewrite delete_matching_filter. unfold entries_with_prefix.
  apply map_filter_filter_l. intros k v _ Hflow.
  change (String.prefix "flow_" k = true) in Hflow.
  change (glob_match "policy_*" k = false). rewrite glob_policy.
  destruct (String.prefix "policy_" k) eqn:Hpolicy; [|done].
  apply prefixes_apart in Hpolicy. congruence.
Qed.

Lemma policy_entries_delete_flow (c : gmap string string) :
  entries_with_prefix "policy_" (delete_keys (keys_matching "flow_*" c) c)
  = entries_with_prefix "policy_" c.
Proof.
  rewrite delete_matching_filter. unfold entries_with_prefix.
  apply map_filter_filter_l. intros k v _ Hpolicy.
  change (String.prefix "policy_" k = true) in Hpolicy.
  change (glob_match "flow_*" k = false). rewrite glob_flow.
  by apply prefixes_apart.
Qed.

Lemma entries_after_delete (p : string) (c : gmap string string) :
  keys_matching p (delete_keys (keys_matching p c) c) = [].
Proof.
  apply keys_matching_nil. intros k Hk.
  by rewrite lookup_delete_matching, Hk.
Qed.

Lemma FormView_post_frame (cls : FormViewClass) (request : HttpRequest)
    (w : World) :
  let w' := after (FormView_post cls request) w in
  db w' = db w ∧ celery w' = celery w ∧ log w' = log w
  ∧ settings_DEBUG w' = settings_DEBUG w.
Proof.
  run. destruct (is_valid _ _); [|done]. by destruct (text_truthy _).
Qed.

Section FurtherViewProperties.

Context {Ver : Type}.
Variable parse : string → Ver.
Variable __version__ : string.
Variable VERSION_CACHE_KEY : string.
Variables PolicyCacheClearForm FlowCacheClearForm : Form.

Local Abbreviation latest_version :=
  (get_latest_version parse __version__ VERSION_CACHE_KEY).
Local Abbreviation context_data :=
  (get_context_data parse __version__ VERSION_CACHE_KEY).
Local Abbreviation policy_post :=
  (PolicyCacheClearView_post PolicyCacheClearForm).
Local Abbreviation flow_post :=
  (FlowCacheClearView_post FlowCacheClearForm).

(** *** The cache-clear views *)

(** A cache-clear view writes one log record, and the number of keys in
    it is the number of entries the cache has lost. *)
Theorem cache_clear_post_logs_removed (request : HttpRequest) (w : World) :
  (log (after (policy_post request) w)
   = log w ++ [{| log_event := "Cleared Policy cache";
                  log_keys := Z.of_nat (size (entries_with_prefix "policy_" (cache w))) |}]
   ∧ size (cache (after (policy_post request) w))
     + size (entries_with_prefix "policy_" (cache w)) = size (cache w))
  ∧ (log (after (flow_post request) w)
     = log w ++ [{| log_event := "Cleared flow cache";
                    log_keys := Z.of_nat (size (entries_with_prefix "flow_" (cache w))) |}]
     ∧ size (cache (after (flow_post request) w))
       + size (entries_with_prefix "flow_" (cache w)) = size (cache w)).
Proof.
  split; split.
  - unfold after. rewrite policy_post_unfold. cbv zeta.
    destruct (FormView_post_frame
      (PolicyCacheClearView PolicyCacheClearForm) request
      (add_log {| log_event := "Cleared Policy cache";
                  log_keys := len (keys_matching "policy_*" (cache w)) |}
         (set_cache (delete_keys (keys_matching "policy_*" (cache w)) (cache w)) w)))
      as (_ & _ & Hlog & _).
    unfold after in Hlog. rewrite Hlog. cbn [log add_log set_cache].
    unfold len. by rewrite length_policy_keys.
  - rewrite policy_post_cache, <-length_policy_keys.
    apply size_delete_matching.
  - unfold after. rewrite flow_post_unfold. cbv zeta.
    destruct (FormView_post_frame
      (FlowCacheClearView FlowCacheClearForm) request
      (add_log {| log_event := "Cleared flow cache";
                  log_keys := len (keys_matching "flow_*" (cache w)) |}
         (set_cache (delete_keys (keys_matching "flow_*" (cache w)) (cache w)) w)))
      as (_ & _ & Hlog & _).
    unfold after in Hlog. rewrite Hlog. cbn [log add_log set_cache].
    unfold len. by rewrite length_flow_keys.
  - rewrite flow_post_cache, <-length_flow_keys.
    apply size_delete_matching.
Qed.

(** A cache-clear view touches nothing but the cache, the log and the
    messages: the database, the task queue and the settings stay. *)
Theorem cache_clear_post_frame (request : HttpRequest) (w : World) :
  (db (after (policy_post request) w) = db w
   ∧ celery (after (policy_post request) w) = celery w
   ∧ settings_DEBUG (after (policy_post request) w) = settings_DEBUG w)
  ∧ (db (after (flow_post request) w) = db w
     ∧ celery (after (flow_post request) w) = celery w
     ∧ settings_DEBUG (after (flow_post request) w) = settings_DEBUG w).
Proof.
  split.
  - unfold after. rewrite policy_post_unfold. cbv zeta.
    match goal with |- context [FormView_post ?cls ?r ?w0] =>
      destruct (FormView_post_frame cls r w0) as (Hdb & Hcelery & _ & Hdebug)
    end.
    unfold after in Hdb, Hcelery, Hdebug. by rewrite Hdb, Hcelery, Hdebug.
  - unfold after. rewrite flow_post_unfold. cbv zeta.
    match goal with |- context [FormView_post ?cls ?r ?w0] =>
      destruct (FormView_post_frame cls r w0) as (Hdb & Hcelery & _ & Hdebug)
    end.
    unfold after in Hdb, Hcelery, Hdebug. by rewrite Hdb, Hcelery, Hdebug.
Qed.

(** The two clears do not interfere: each leaves the entries of the other
    family, and the cache after both is the same in either order. *)
Theorem cache_clear_posts_commute
    (r1 r2 r3 r4 : HttpRequest) (w : World) :
  entries_with_prefix "flow_" (cache (after (policy_post r1) w))
  = entries_with_prefix "flow_" (cache w)
  ∧ entries_with_prefix "policy_" (cache (after (flow_post r2) w))
    = entries_with_prefix "policy_" (cache w)
  ∧ cache (after (flow_post r2) (after (policy_post r1) w))
    = cache (after (policy_post r3) (after (flow_post r4) w)).
Proof.
  split_and!.
  - rewrite policy_post_cache. apply flow_entries_delete_policy.
  - rewrite flow_post_cache. apply policy_entries_delete_flow.
  - rewrite (flow_post_cache _ r2), (policy_post_cache _ r1).
    rewrite (policy_post_cache _ r3), (flow_post_cache _ r4).
    rewrite !delete_matching_filter. apply map_filter_comm.
Qed.

(** *** The overview *)

Lemma get_latest_version_result (w : World) :
  result latest_version w
  = match cache w !! VERSION_CACHE_KEY with
    | Some v => if truthy (Some v) then parse v else parse __version__
    | None => parse __version__
    end.
Proof.
  unfold get_latest_version. run.
  destruct (cache w !! VERSION_CACHE_KEY) as [[|c v]|]; cbn;
    by destruct (settings_DEBUG w).
Qed.

(** The context, from the state the view starts in. *)
Lemma get_context_data_result (kwargs : gmap string (ctxval Ver)) (w : World) :
  result (context_data kwargs) w
  = let context :=
      <["cached_flows" := CInt (len (keys_matching "flow_*" (cache w)))]>
      (<["cached_policies" := CInt (len (keys_matching "policy_*" (cache w)))]>
      (<["policies_without_binding" :=
           CInt (len (policies_without_binding_query (db w)))]>
      (<["providers_without_application" :=
           CProviders (providers_without_application_query (db w))]>
      (<["most_used_applications" :=
           CApplications (most_used_applications_query (db w))]>
      (<["version_latest" := CVersion (result latest_version w)]>
      (<["version" := CVersion (parse __version__)]>
      (<["provider_count" := CInt (len (Provider_objects (db w)))]>
      (<["user_count" := CInt (len (User_objects (db w)) - 1)]>
      (<["policy_count" := CInt (len (Policy_objects (db w)))]>
         kwargs))))))))) in
    match context !! "view" with
    | Some _ => context
    | None => <["view" := CView "AdministrationOverviewView"]> context
    end.
Proof.
  unfold get_context_data, result, query, cache_keys,
    get_most_used_applications, TemplateView_get_context_data,
    mbind, M_bind, mret, M_ret.
  cbn -[get_latest_version].
  pose proof (get_latest_version_db parse __version__ VERSION_CACHE_KEY w)
    as Hdb.
  pose proof (get_latest_version_cache parse __version__ VERSION_CACHE_KEY w)
    as Hcache.
  unfold after in Hdb, Hcache.
  destruct (latest_version w) as [v w1]. cbn [fst snd] in *.
  by rewrite Hdb, Hcache.
Qed.

Ltac lookup_context :=
  rewrite get_context_data_result; cbv zeta;
  match goal with
  | |- context [match ?kw !! "view" with _ => _ end] =>
      destruct (kw !! "view")
  end;
  repeat (rewrite lookup_insert_ne by done);
  rewrite ?lookup_insert_eq.

(** The overview lists the providers that no application refers to, each
    once. (The query has no [order_by]; the order of the rows is the
    database's, and the statement is up to order.) *)
Theorem get_context_data_providers_without_application
    (kwargs : gmap string (ctxval Ver)) (w : World) :
  ∃ rows : list ProviderRow,
    result (context_data kwargs) w !! "providers_without_application"
    = Some (CProviders rows)
    ∧ rows ≡ₚ filter (λ p, ¬ has_application (db w) p)
                (Provider_objects (db w)).
Proof.
  exists (providers_without_application_query (db w)). split.
  - by lookup_context.
  - by rewrite providers_without_application_query_spec.
Qed.

(** Reading the overview again gives the same context: the first reading
    changes nothing that the second one looks at. Each reading decides
    anew about the version check, so without a cached version and with
    [DEBUG] off two readings enqueue two checks. *)
Theorem get_context_data_repeatable
    (kwargs kwargs' : gmap string (ctxval Ver)) (w : World) :
  let w' := after (context_data kwargs') w in
  let tasks :=
    if negb (truthy (cache w !! VERSION_CACHE_KEY)) && negb (settings_DEBUG w)
    then [update_latest_version] else [] in
  result (context_data kwargs) w' = result (context_data kwargs) w
  ∧ celery (after (context_data kwargs) w') = celery w ++ tasks ++ tasks.
Proof.
  cbv zeta.
  assert (Hdb : db (after (context_data kwargs') w) = db w).
  { by rewrite get_context_data_after, get_latest_version_db. }
  assert (Hcache : cache (after (context_data kwargs') w) = cache w).
  { by rewrite get_context_data_after, get_latest_version_cache. }
  split.
  - rewrite !get_context_data_result, !get_latest_version_result.
    by rewrite Hdb, Hcache.
  - rewrite !get_context_data_after, !get_latest_version_after.
    destruct (negb (truthy (cache w !! VERSION_CACHE_KEY))
              && negb (settings_DEBUG w)) eqn:Hcond.
    + cbn [cache add_task settings_DEBUG]. rewrite Hcond.
      cbn [celery add_task]. by rewrite <-app_assoc.
    + rewrite Hcond. by rewrite !app_nil_r.
Qed.

(** The handler passes on what it was given: a key of [kwargs] that it
    does not assign reaches the context unchanged, ["view"] is set only
    if the caller did not set it, and the context has no other keys. *)
Theorem get_context_data_passes_kwargs
    (kwargs : gmap string (ctxval Ver)) (w : World) (key : string)
    (Hkey : key ∉ "view" :: overview_keys) :
  result (context_data kwargs) w !! key = kwargs !! key
  ∧ result (context_data kwargs) w !! "view"
    = Some (default (CView "AdministrationOverviewView") (kwargs !! "view"))
  ∧ dom (result (context_data kwargs) w)
    = dom kwargs ∪ list_to_set ("view" :: overview_keys).
Proof.
  unfold overview_keys in *. rewrite !not_elem_of_cons in Hkey.
  destruct Hkey as (? & ? & ? & ? & ? & ? & ? & ? & ? & ? & ? & _).
  rewrite get_context_data_result. cbv zeta.
  match goal with
  | |- context [match ?kw !! "view" with _ => _ end] =>
      destruct (kw !! "view") as [view|] eqn:Hview
  end.
  - split_and!.
    + by repeat (rewrite lookup_insert_ne by done).
    + rewrite Hview. repeat (rewrite lookup_insert_ne in Hview by done).
      by rewrite Hview.
    + repeat (rewrite lookup_insert_ne in Hview by done).
      rewrite !dom_insert_L. cbn [list_to_set foldr].
      assert ("view" ∈ dom kwargs) as Hin by (apply elem_of_dom; eauto).
      apply set_eq. intros x.
      rewrite !elem_of_union, !elem_of_singleton, elem_of_empty.
      split; [tauto|]. intros [?|[->|?]]; tauto.
  - split_and!.
    + by repeat (rewrite lookup_insert_ne by done).
    + rewrite lookup_insert_eq.
      repeat (rewrite lookup_insert_ne in Hview by done). by rewrite Hview.
    + rewrite !dom_insert_L. cbn [list_to_set foldr].
      apply set_eq. intros x.
      rewrite !elem_of_union, !elem_of_singleton, elem_of_empty. tauto.
Qed.

(** The overview always shows the running version as [version]. As
    [version_latest] it shows the cached version when there is one that
    is not empty, and the running version otherwise. *)
Theorem get_context_data_versions
    (kwargs : gmap string (ctxval Ver)) (w0 w w' : World) (v : string)
    (Hcached : cache w !! VERSION_CACHE_KEY = Some v)
    (Hnonempty : v ≠ "")
    (Hmissing : cache w' !! VERSION_CACHE_KEY = None
                ∨ cache w' !! VERSION_CACHE_KEY = Some "") :
  result (context_data kwargs) w0 !! "version"
  = Some (CVersion (parse __version__))
  ∧ result (context_data kwargs) w !! "version"
    = Some (CVersion (parse __version__))
  ∧ result (context_data kwargs) w !! "version_latest"
    = Some (CVersion (parse v))
  ∧ result (context_data kwargs) w' !! "version"
    = Some (CVersion (parse __version__))
  ∧ result (context_data kwargs) w' !! "version_latest"
    = Some (CVersion (parse __version__))
  ∧ result (context_data kwargs) w' !! "version_latest"
    = result (context_data kwargs) w' !! "version".
Proof.
  assert (Hversion : ∀ w1, result (context_data kwargs) w1 !! "version"
                           = Some (CVersion (parse __version__))).
  { intros w1. by lookup_context. }
  assert (Hlatest : result (context_data kwargs) w' !! "version_latest"
                    = Some (CVersion (parse __version__))).
  { lookup_context; rewrite get_latest_version_result;
      by destruct Hmissing as [-> | ->]. }
  split_and!; try apply Hversion.
  - lookup_context; rewrite get_latest_version_result, Hcached;
      by destruct v.
  - exact Hlatest.
  - by rewrite Hlatest, Hversion.
Qed.

(** The parts are no larger than the wholes: the policies without binding
    are among the policies, the providers without application among the
    providers, and the cached policies and flows are different entries of
    the cache. *)
Theorem get_context_data_parts (kwargs : gmap string (ctxval Ver))
    (w : World) :
  ∃ (unbound policies providers cached_policies cached_flows : nat)
    (without_application : list ProviderRow),
    result (context_data kwargs) w !! "policies_without_binding"
    = Some (CInt (Z.of_nat unbound))
    ∧ result (context_data kwargs) w !! "policy_count"
      = Some (CInt (Z.of_nat policies))
    ∧ result (context_data kwargs) w !! "providers_without_application"
      = Some (CProviders without_application)
    ∧ result (context_data kwargs) w !! "provider_count"
      = Some (CInt (Z.of_nat providers))
    ∧ result (context_data kwargs) w !! "cached_policies"
      = Some (CInt (Z.of_nat cached_policies))
    ∧ result (context_data kwargs) w !! "cached_flows"
      = Some (CInt (Z.of_nat cached_flows))
    ∧ unbound ≤ policies
    ∧ length without_application ≤ providers
    ∧ cached_policies + cached_flows ≤ size (cache w).
Proof.
  exists (length (policies_without_binding_query (db w))),
    (length (Policy_objects (db w))), (length (Provider_objects (db w))),
    (length (keys_matching "policy_*" (cache w))),
    (length (keys_matching "flow_*" (cache w))),
    (providers_without_application_query (db w)).
  split_and!; try by lookup_context.
  - rewrite policies_without_binding_query_spec. apply length_filter.
  - rewrite providers_without_application_query_spec. apply length_filter.
  - rewrite length_flow_keys, <-(flow_entries_delete_policy (cache w)).
    rewrite <-(size_delete_matching "policy_*" (cache w)).
    unfold entries_with_prefix.
    pose proof (map_size_filter
      (λ kv : string * string, String.prefix "flow_" kv.1 = true)
      (delete_keys (keys_matching "policy_*" (cache w)) (cache w))).
    lia.
Qed.

(** After the policy cache is cleared the overview shows no cached policy
    and as many cached flows as before; likewise for the flow cache. *)
Theorem get_context_data_after_clear
    (kwargs : gmap string (ctxval Ver)) (request : HttpRequest) (w : World) :
  (result (context_data kwargs) (after (policy_post request) w)
     !! "cached_policies" = Some (CInt 0)
   ∧ result (context_data kwargs) (after (policy_post request) w)
       !! "cached_flows"
     = result (context_data kwargs) w !! "cached_flows")
  ∧ (result (context_data kwargs) (after (flow_post request) w)
       !! "cached_flows" = Some (CInt 0)
     ∧ result (context_data kwargs) (after (flow_post request) w)
         !! "cached_policies"
       = result (context_data kwargs) w !! "cached_policies").
Proof.
  split; split.
  - lookup_context; by rewrite policy_post_cache, entries_after_delete.
  - transitivity (Some (CInt (Ver := Ver)
      (Z.of_nat (size (entries_with_prefix "flow_" (cache w)))))).
    + lookup_context; unfold len;
        by rewrite policy_post_cache, length_flow_keys,
          flow_entries_delete_policy.
    + symmetry. lookup_context; unfold len; by rewrite length_flow_keys.
  - lookup_context; by rewrite flow_post_cache, entries_after_delete.
  - transitivity (Some (CInt (Ver := Ver)
      (Z.of_nat (size (entries_with_prefix "policy_" (cache w)))))).
    + lookup_context; unfold len;
        by rewrite flow_post_cache, length_policy_keys,
          policy_entries_delete_flow.
    + symmetry. lookup_context; unfold len; by rewrite length_policy_keys.
Qed.

End FurtherViewProperties.

(** ** The further properties on sample data *)

Example providers_without_application_sample :
  providers_without_application_query sample_providers_database
  = [{| provider_pk := 2%N |}].
Proof. by vm_compute. Qed.

(** A key the handler does not assign. *)
Lemma get_context_data_passes_kwargs_witness :
  let w := world_of empty_database sample_cache false in
  let kwargs : gmap string (ctxval string) := {["title" := CInt 3]} in
  let context :=
    result (get_context_data sample_parse sample_version sample_key kwargs) w in
  ("title" ∉ "view" :: overview_keys)
  ∧ context !! "title" = kwargs !! "title"
  ∧ context !! "view"
    = Some (default (CView "AdministrationOverviewView") (kwargs !! "view"))
  ∧ dom context = dom kwargs ∪ list_to_set ("view" :: overview_keys).
Proof.
  intros w kwargs context.
  assert (Hkey : "title" ∉ "view" :: overview_keys).
  { apply (bool_decide_unpack _). by vm_compute. }
  split; [exact Hkey|].
  exact (get_context_data_passes_kwargs sample_parse sample_version
           sample_key kwargs w "title" Hkey).
Defined.

(** A cache without a version entry, a cache with a version, and a cache
    whose version entry is empty. *)
Lemma get_context_data_versions_witness :
  let w0 := world_of empty_database ∅ true in
  let w := world_of empty_database sample_cache false in
  let w' := world_of empty_database empty_version_cache false in
  let context := get_context_data sample_parse sample_version sample_key ∅ in
  (cache w !! sample_key = Some "0.10.1")
  ∧ (cache w' !! sample_key = Some "")
  ∧ result context w0 !! "version"
    = Some (CVersion (sample_parse sample_version))
  ∧ result context w !! "version"
    = Some (CVersion (sample_parse sample_version))
  ∧ result context w !! "version_latest"
    = Some (CVersion (sample_parse "0.10.1"))
  ∧ result context w' !! "version"
    = Some (CVersion (sample_parse sample_version))
  ∧ result context w' !! "version_latest"
    = Some (CVersion (sample_parse sample_version))
  ∧ result context w' !! "version_latest" = result context w' !! "version".
Proof.
  intros w0 w w' context.
  split; [by vm_compute|]. split; [by vm_compute|].
  apply (get_context_data_versions sample_parse sample_version sample_key
           ∅ w0 w w' "0.10.1").
  - by vm_compute.
  - discriminate.
  - right. by vm_compute.
Defined.
